(** * ValTime: frame generator, playback scheduler and menu state machine

    A shallow embedding of [animation_player.py] and [overlay.py].

    - Python text is a list of Unicode code points ([pystr]); the
      sprite literals are written as in the source file and decoded
      from UTF-8, the encoding of that file.
    - Fallible Python code returns [result], an error monad over the
      exceptions the code can raise.
    - Python object identity ([is]) is written out: a list element is
      an [obj], a value tagged with the identity of the object that
      holds it.
    - Keyboard, clipboard, [time.sleep] and Qt signals are recorded as a
      trace of [event]s.
    - Window rendering (the Qt widgets rebuilt by [rebuild_options] and
      [update_header_title]) has no effect on navigation and is left
      out. *)

From Stdlib Require Import ZArith NArith QArith Qround String Ascii List Lia ZifyNat.
From stdpp Require Import base gmap list strings pretty.

Set Default Proof Using "Type".
Local Open Scope Z_scope.

(** ** Exceptions and the error monad *)

Inductive exn :=
  | IndexError
  | ValueError
  | TypeError
  | KeyError
  | AttributeError
  | JSONDecodeError
  | FileNotFoundError
  | PermissionError
  | OverflowError.

Inductive result (A : Type) :=
  | Ok (a : A)
  | Raise (e : exn).
Arguments Ok {A} a.
Arguments Raise {A} e.

#[global] Instance result_ret : MRet result := fun A a => Ok a.
#[global] Instance result_bind : MBind result := fun A B f m =>
  match m with
  | Ok a => f a
  | Raise e => Raise e
  end.

(** ** Text *)

(** A Python character is a code point, a [str] a list of them. *)
Abbreviation pychar := N (only parsing).
Abbreviation pystr := (list N) (only parsing).

Definition byte_of (c : ascii) : N := N_of_ascii c.

(** UTF-8 decoding of the bytes of a source literal (one to four byte
    sequences; the literals of the program are well formed). *)
Fixpoint utf8_decode (bs : list N) : pystr :=
  match bs with
  | [] => []
  | b0 :: r0 =>
    if (b0 <? 0x80)%N then b0 :: utf8_decode r0
    else if (b0 <? 0xE0)%N then
      match r0 with
      | b1 :: r1 =>
        N.lor (N.shiftl (N.land b0 0x1F) 6) (N.land b1 0x3F) :: utf8_decode r1
      | _ => []
      end
    else if (b0 <? 0xF0)%N then
      match r0 with
      | b1 :: b2 :: r2 =>
        N.lor (N.shiftl (N.land b0 0x0F) 12)
          (N.lor (N.shiftl (N.land b1 0x3F) 6) (N.land b2 0x3F)) :: utf8_decode r2
      | _ => []
      end
    else
      match r0 with
      | b1 :: b2 :: b3 :: r3 =>
        N.lor (N.shiftl (N.land b0 0x07) 18)
          (N.lor (N.shiftl (N.land b1 0x3F) 12)
             (N.lor (N.shiftl (N.land b2 0x3F) 6) (N.land b3 0x3F))) :: utf8_decode r3
      | _ => []
      end
  end.

Definition text (s : string) : pystr :=
  utf8_decode (byte_of <$> list_ascii_of_string s).

Definition SPACE : pychar := 32%N.

(** [str.isspace] on one character: the code points Python treats as
    white space, which [strip] and [rstrip] remove. *)
Definition py_isspace (c : pychar) : bool :=
  ((9 <=? c) && (c <=? 13) || (28 <=? c) && (c <=? 32) || (c =? 0x85)
   || (c =? 0xA0) || (c =? 0x1680) || (0x2000 <=? c) && (c <=? 0x200A)
   || (c =? 0x2028) || (c =? 0x2029) || (c =? 0x202F) || (c =? 0x205F)
   || (c =? 0x3000))%N.

(** [s.rstrip()]: drop the trailing white space. *)
Fixpoint rstrip (s : pystr) : pystr :=
  match s with
  | [] => []
  | c :: t =>
    match rstrip t with
    | [] => if py_isspace c then [] else [c]
    | t' => c :: t'
    end
  end.

(** [s.lstrip()]: drop the leading white space. *)
Fixpoint lstrip (s : pystr) : pystr :=
  match s with
  | [] => []
  | c :: t => if py_isspace c then lstrip t else s
  end.

(** [s.strip()]: drop the white space on both sides. *)
Definition strip (s : pystr) : pystr := rstrip (lstrip s).

(** ** Sequences *)

(** [range(lo, hi)]. *)
Definition range (lo hi : Z) : list Z := seqZ lo (hi - lo).

(** [l[i]] with Python's negative indices; out of range raises. *)
Definition py_index {A} (l : list A) (i : Z) : result A :=
  let n := Z.of_nat (length l) in
  let j := if decide (i < 0) then i + n else i in
  if decide (0 ≤ j < n) then
    match l !! Z.to_nat j with
    | Some x => Ok x
    | None => Raise IndexError
    end
  else Raise IndexError.

(** ** The truck sprite (animation_player.py) *)

(** The full truck sprite (each line is exactly 26 characters). *)
Definition TRUCK_SPRITE : list pystr := text <$> [
    "▒▒▒▒▒▒▒▒▒▒▒▒▒▒▒▒▒▒▒▒▒▒▒▒▒▒";
    "▒▒▒▒▒▒▒▒▒▒▒▒▒▒▒▒▒▒▒▒▒▒▒▒▒▒";
    "▛▀▀▀▀▀▀▀▀▀▀▀▀▀▀▀▀▀▀▀█▒▒▒▒▒";
    "▌▒▒▒▒▒▒▒▒▒▒▒▒▒▒▒▒▒▒▒█▄▄▄▒▒";
    "▌▒▒▒▒▒▒▒▒▒▒▒▒▒▒▒▒▒▒▒█▒▒▐▒▒";
    "▌▒▒▒▀▀▜▒▀▀▜▒▛▜▒▛▜▒▒▒█║█▐▒▒";
    "▌▄▄▒▄▄▟▒▄▄▟║▙▟▒▙▟▒▒▒█║▌▐▒▒";
    "▌▒▒▒▌▒▒▒▌▒▒▒▌▌▒▌▌▒▒▒█████▒";
    "▌▒▒▒▙▄▄▒▙▄▄▒▌▙▒▌▙▒▒▒█████▒";
    "▌▒▒▒▒▒▒▒▒▒▒▒▒▒▒▒▒▒▒▒█████▒";
    "▙▄▄▄▄▄▄▄▄▄▄▄▄▄▄▄▄▄▄▄█████▒";
    "▒▒▛▜▛▜▒▒▒▒▒▒▒▒▒▒▛▜▛▜▒▒▒▒▒▒";
    "▒▒▙▟▙▟▒▒▒▒▒▒▒▒▒▒▙▟▙▟▒▒▒▒▒▒"
  ]%string.

(** Background character. *)
Definition BG_CHAR : pychar := 0x2592%N.
Definition SCREEN_WIDTH : Z := 26.
Definition TRUCK_WIDTH : Z := 26.

(** ** The frame generator *)

(** The body of [generate_truck_frames], with the sprite, the two
    widths and the background glyph it reads from module constants
    taken as arguments. *)
Section FrameGenerator.
Variable sprite : list pystr.
Variables truck_width screen_width : Z.
Variable bg : pychar.

(** The innermost loop: one line of one frame. *)
Definition render_line (truck_pos : Z) (sprite_line : pystr) : result pystr :=
  mapM (fun screen_x =>
          let truck_x := screen_x - truck_pos in
          if decide (0 ≤ truck_x < truck_width)
          then py_index sprite_line truck_x
          else Ok bg)
       (range 0 screen_width).

Definition render_frame (truck_pos : Z) : result (list pystr) :=
  mapM (render_line truck_pos) sprite.

Definition generate_frames : result (list (list pystr)) :=
  mapM render_frame (range (- truck_width) (screen_width + 1)).

(** What the loops compute when no index is out of range. *)
Definition pixel (truck_pos : Z) (sprite_line : pystr) (screen_x : Z) : pychar :=
  let truck_x := screen_x - truck_pos in
  if decide (0 ≤ truck_x < truck_width)
  then default bg (sprite_line !! Z.to_nat truck_x)
  else bg.
End FrameGenerator.

Definition generate_truck_frames : result (list (list pystr)) :=
  generate_frames TRUCK_SPRITE TRUCK_WIDTH SCREEN_WIDTH BG_CHAR.

(** ** Objects and identity *)

(** A Python object held in a list: [oid] is its identity (what [is]
    compares), [oval] its contents. *)
Record obj (A : Type) := Obj { oid : nat; oval : A }.
Arguments Obj {A} oid oval.
Arguments oid {A} o.
Arguments oval {A} o.

(** [x is y]. *)
Definition py_is {A} (x y : obj A) : bool := bool_decide (oid x = oid y).

(** Objects created one after the other, the first with identity
    [next]: every [frame_lines = []] of the generator is a new list. *)
Definition alloc_list {A} (next : nat) (l : list A) : list (obj A) :=
  imap (fun i v => Obj (next + i)%nat v) l.

(** A frame of the player is a list of lines or, after an edit without
    a line break, a single string. *)
Inductive frame :=
  | FLines (lines : list pystr)
  | FText (s : pystr).

(** Generate the full animation frames (the generator does not raise
    on the truck sprite, whose lines are all 26 wide). *)
Definition TRUCK_ANIMATION : list (obj frame) :=
  match generate_truck_frames with
  | Ok frames => alloc_list 0 (FLines <$> frames)
  | Raise _ => []
  end.

(** ** The wire formatter *)

(** Combine all lines into one string with spaces after every 26
    characters: each line is 26 chars, so a space is added after each
    line. *)
Definition format_frame_for_valorant (frame_lines : list pystr) : pystr :=
  rstrip (foldl (fun result line => result ++ (line ++ [SPACE])) [] frame_lines).

(** The loop of [play_thread] for a single-string frame: a space after
    every 26th character; [j] is the index of the first character. *)
Fixpoint space_every_26 (j : nat) (s : pystr) : pystr :=
  match s with
  | [] => []
  | char :: t =>
    char :: (if decide ((j + 1) mod 26 = 0)%nat then [SPACE] else [])
         ++ space_every_26 (S j) t
  end.

(** Iterating over a frame: the lines of a list, the characters of a
    string. *)
Definition frame_lines_of (f : frame) : list pystr :=
  match f with
  | FLines ls => ls
  | FText s => (fun c => [c]) <$> s
  end.

(** The wire format in the words of the specification: the lines one
    after the other, a single space between two of them. *)
Fixpoint joined (lines : list pystr) : pystr :=
  match lines with
  | [] => []
  | line :: rest =>
    match rest with
    | [] => line
    | _ => line ++ SPACE :: joined rest
    end
  end.

(** ** JSON values and the persisted configuration *)

(** What [json.load] returns. A float is kept as the rational its
    literal denotes; [Infinity], [-Infinity] and [NaN], which
    [json.load] reads too, are floats that denote none. *)
#[warnings="-register-all"]
Inductive pyval :=
  | VNone
  | VBool (b : bool)
  | VInt (z : Z)
  | VFloat (q : Q)
  | VInf (negative : bool)
  | VNaN
  | VStr (s : string)
  | VList (l : list pyval)
  | VDict (d : gmap string pyval).

(** [d.get(key, default)]; only a dict has [get]. *)
Definition dict_get (d : pyval) (key : string) (dflt : pyval) : result pyval :=
  match d with
  | VDict m => Ok (default dflt (m !! key))
  | _ => Raise AttributeError
  end.

(** The file [animation_config.json] as [open] and [json.load] find it. *)
Inductive file_contents :=
  | Malformed                (* not a JSON document *)
  | Document (v : pyval).

Inductive file_state :=
  | FileMissing
  | FileUnreadable           (* exists, but [open] is refused *)
  | FileHolds (c : file_contents).

Definition py_open (f : file_state) : result file_contents :=
  match f with
  | FileMissing => Raise FileNotFoundError
  | FileUnreadable => Raise PermissionError
  | FileHolds c => Ok c
  end.

Definition json_load (c : file_contents) : result pyval :=
  match c with
  | Malformed => Raise JSONDecodeError
  | Document v => Ok v
  end.

Definition truck_defaults : pyval :=
  VDict {[ "skip_frames" := VInt 5; "frame_delay" := VFloat 0.5 ]}.

Definition default_config : pyval :=
  VDict {[ "animations" := VDict {[ "Truck" := truck_defaults ]} ]}.

(** Load animation configuration from file. The same function is
    defined in animation_player.py and, nested in [trigger_animation],
    in overlay.py. *)
Definition load_animation_config (f : file_state) : result pyval :=
  match py_open f ≫= json_load with
  | Raise FileNotFoundError => Ok default_config
  | r => r
  end.

(** The settings of one animation, as both callers read them:
    [config.get("animations", {}).get(name, {})], then one [get] per
    field with its default. *)
Definition anim_settings (config : pyval) (name : string) : result (pyval * pyval) :=
  animations ← dict_get config "animations" (VDict ∅);
  anim_config ← dict_get animations name (VDict ∅);
  skip ← dict_get anim_config "skip_frames" (VInt 5);
  frame_delay ← dict_get anim_config "frame_delay" (VFloat 0.5);
  mret (skip, frame_delay).

(** ** The playback subsequence *)

(** Every [k]-th element, the first one after [skip] elements. *)
Fixpoint stride_from {A} (k skip : nat) (l : list A) : list A :=
  match l with
  | [] => []
  | x :: t =>
    match skip with
    | O => x :: stride_from k (pred k) t
    | S skip' => stride_from k skip' t
    end
  end.

(** [l[::step]] for an integer step. *)
Definition py_slice_step {A} (l : list A) (step : Z) : result (list A) :=
  if decide (step = 0) then Raise ValueError
  else if decide (0 < step) then Ok (stride_from (Z.to_nat step) 0 l)
  else Ok (stride_from (Z.to_nat (- step)) 0 (reverse l)).

(** The step of a slice: an integer, a bool, or [None] for the default. *)
Definition slice_step_of (v : pyval) : result Z :=
  match v with
  | VNone => Ok 1
  | VInt z => Ok z
  | VBool b => Ok (if b then 1 else 0)
  | _ => Raise TypeError
  end.

(** [frames_to_play = list(frames[::skip])], then the last frame is
    appended when [frames_to_play[-1] is not frames[-1]]. *)
Definition frames_to_play {A} (frames : list (obj A)) (skip : pyval)
  : result (list (obj A)) :=
  step ← slice_step_of skip;
  sampled ← py_slice_step frames step;
  match last frames with
  | None => Ok sampled
  | Some final =>
    tail ← py_index sampled (-1);
    if py_is tail final then Ok sampled else Ok (sampled ++ [final])
  end.

(** How many elements of [l] are the object [x]. *)
Definition count_is {A} (x : obj A) (l : list (obj A)) : nat :=
  length (filter (fun y => oid y = oid x) l).

(** The payload of a frame held in a list of lines. *)
Definition payload_of (f : obj frame) : pystr :=
  format_frame_for_valorant (frame_lines_of (oval f)).

(** ** Synthesized input *)

Inductive key :=
  | KShift
  | KEnter
  | KCtrl
  | KChar (c : string).

Inductive event :=
  | Copy (payload : pystr)        (* pyperclip.copy *)
  | Press (k : key)
  | Release (k : key)
  | Sleep (seconds : Q)           (* time.sleep *)
  | FramePlayed (n : Z)           (* signals.frame_played.emit *)
  | AnimationComplete.            (* signals.animation_complete.emit *)

(** A worker thread: the events it has issued, and how it ended. *)
Definition proc (A : Type) : Type := list event * result A.

#[global] Instance proc_ret : MRet proc := fun A a => ([], Ok a).
#[global] Instance proc_bind : MBind proc := fun A B f m =>
  match m with
  | (t, Ok a) => let '(t', r) := f a in (t ++ t', r)
  | (t, Raise e) => (t, Raise e)
  end.

Definition emit (t : list event) : proc unit := (t, Ok ()).
Definition lift {A} (r : result A) : proc A := ([], r).

(** [time.sleep] turns its argument into a timeout, a count of
    nanoseconds held in a signed 64-bit integer. *)
Definition NS_PER_SEC : Z := 1000000000.
Definition TIMEOUT_MIN : Z := - 2 ^ 63.
Definition TIMEOUT_MAX : Z := 2 ^ 63 - 1.

(** A timeout is rounded away from zero. *)
Definition round_timeout (q : Q) : Z :=
  if Qlt_le_dec q 0 then Qfloor q else Qceiling q.

(** The timeout of a count of nanoseconds: the count has to fit. *)
Definition timeout_of (ns : Z) : result Z :=
  if decide (TIMEOUT_MIN ≤ ns ≤ TIMEOUT_MAX) then Ok ns else Raise OverflowError.

(** [time.sleep(v)]: the length is converted first, a float through its
    product with [NS_PER_SEC], rounded, an integer (a bool is one)
    through the exact product; a length that is no number is a
    [TypeError], a NaN a [ValueError], a timeout out of range (an
    infinity always is) an [OverflowError]. A negative timeout is
    refused after that. *)
Definition py_sleep (v : pyval) : proc unit :=
  let sleep (ns : Z) (secs : Q) : proc unit :=
    timeout ← lift (timeout_of ns);
    if decide (timeout < 0) then lift (Raise ValueError) else emit [Sleep secs] in
  match v with
  | VInt z => sleep (z * NS_PER_SEC) (inject_Z z)
  | VFloat q => sleep (round_timeout (q * inject_Z NS_PER_SEC)) q
  | VInf _ => lift (Raise OverflowError)
  | VNaN => lift (Raise ValueError)
  | VBool b => emit [Sleep (if b then 1 else 0)]
  | _ => lift (Raise TypeError)
  end.

(** The lengths, in seconds, that [time.sleep] takes: not negative,
    and at most [TIMEOUT_MAX] nanoseconds. *)
Definition in_sleep_range (d : Q) : Prop :=
  (0 <= d)%Q ∧ (d * inject_Z NS_PER_SEC <= inject_Z TIMEOUT_MAX)%Q.

(** Paste a line in Valorant all chat using the clipboard. The overlay
    issues the same events, written out inside [play_animation]. *)
Definition type_line_in_chat (line : pystr) : list event :=
  [ Copy line; Sleep 0.01;
    (* Shift+Enter opens all chat *)
    Press KShift; Sleep 0.01; Press KEnter; Sleep 0.01;
    Release KEnter; Sleep 0.01; Release KShift; Sleep 0.02;
    (* paste with Ctrl+V *)
    Press KCtrl; Press (KChar "v"); Release (KChar "v"); Release KCtrl; Sleep 0.01;
    (* Enter sends *)
    Press KEnter; Release KEnter ].

(** The truth value of a string: it is not empty. *)
Definition truthy (s : pystr) : bool := bool_decide (s ≠ []).

(** ** Playback in the animation player *)

(** [self.is_playing] is written by the interface thread while the
    playback thread runs. The loop reads it twice per frame; [at_top i]
    and [at_foot i] are the values the two reads of iteration [i] see. *)
Record flag_reads := FlagReads { at_top : nat → bool; at_foot : nat → bool }.

Definition never_stopped : flag_reads := FlagReads (fun _ => true) (fun _ => true).

Record player := Player {
  frames : list (obj frame);
  skip_frames : pyval;
  frame_delay : pyval
}.

(** What one iteration sends for its frame. *)
Definition send_frame (f : frame) : list event :=
  match f with
  | FLines ls =>
    let formatted := format_frame_for_valorant ls in
    if truthy formatted then type_line_in_chat formatted else []
  | FText s =>
    if truthy (strip s)
    then type_line_in_chat (rstrip (space_every_26 0 s))
    else []
  end.

(** [for i, frame in enumerate(frames_to_play)], from index [i] on. *)
Fixpoint play_loop (is_playing : flag_reads) (delay : pyval) (len : nat)
    (i : nat) (rest : list (obj frame)) : proc unit :=
  match rest with
  | [] => mret ()
  | f :: rest' =>
    if negb (at_top is_playing i) then mret ()
    else
      emit (send_frame (oval f));;
      emit [FramePlayed (Z.of_nat i + 1)];;
      (if bool_decide (Z.of_nat i < Z.of_nat len - 1) && at_foot is_playing i
       then py_sleep delay else mret ());;
      play_loop is_playing delay len (S i) rest'
  end.

(** The thread started by [start_playback]. *)
Definition play_thread (self : player) (is_playing : flag_reads) : proc unit :=
  to_play ← lift (frames_to_play (frames self) (skip_frames self));
  play_loop is_playing (frame_delay self) (length to_play) 0 to_play;;
  emit [AnimationComplete].

(** [AnimationPlayer.__init__]: the frames and the settings read from
    the config. The spin boxes of the window, which show the settings
    and can clamp one that is out of their range (1..10, 0.1..5.0), are
    not modelled. *)
Definition player_init (f : file_state) : result player :=
  config ← load_animation_config f;
  animations ← dict_get config "animations" (VDict ∅);
  anim_config ← dict_get animations "Truck" (VDict ∅);
  delay ← dict_get anim_config "frame_delay" (VFloat 0.5);
  skip ← dict_get anim_config "skip_frames" (VInt 5);
  mret (Player TRUCK_ANIMATION skip delay).

(** ** Playback from the overlay *)

(** [for frame in frames_to_play] of [trigger_animation]. *)
Fixpoint overlay_loop (delay : pyval) (rest : list (obj frame)) : proc unit :=
  match rest with
  | [] => mret ()
  | f :: rest' =>
    let formatted := format_frame_for_valorant (frame_lines_of (oval f)) in
    (if truthy formatted
     then emit (type_line_in_chat formatted);; py_sleep delay
     else mret ());;
    overlay_loop delay rest'
  end.

(** The timer thread started by [trigger_animation]. *)
Definition play_animation (animation_name : string) (f : file_state) : proc unit :=
  if decide (animation_name = "Truck") then
    config ← lift (load_animation_config f);
    settings ← lift (anim_settings config animation_name);
    to_play ← lift (frames_to_play TRUCK_ANIMATION settings.1);
    overlay_loop settings.2 to_play
  else mret ().

(** The payloads handed to the clipboard, in order: one per dispatch. *)
Definition dispatched (t : list event) : list pystr :=
  omap (fun e => match e with Copy p => Some p | _ => None end) t.

Definition sleeps (t : list event) : list Q :=
  omap (fun e => match e with Sleep q => Some q | _ => None end) t.

(** How often the thread slept for exactly [d] seconds. *)
Definition count_sleeps (d : Q) (t : list event) : nat :=
  length (filter (fun q => Qeq_bool q d) (sleeps t)).

(** The frames of the truck animation at the given indices. *)
Definition frames_at (indices : list nat) : list (obj frame) :=
  omap (fun i => TRUCK_ANIMATION !! i) indices.

(** A config file that maps "Truck" to skip_frames 5 and frame_delay
    0.5, in the layout [save_animation_config] writes. *)
Definition truck_config_file : file_state :=
  FileHolds (Document (VDict {[ "animations" := VDict {[ "Truck" :=
    VDict {[ "skip_frames" := VInt 5; "frame_delay" := VFloat 0.5 ]} ]} ]})).


(** ** The communication menu (overlay.py) *)

Module Menu.

(** Main menu options (display order). *)
Definition main_options : list string :=
  ["Rocket League"; "Animations"; "Combat"; "Tactics"; "Social"; "Strategy"]%string.

(** Built-in Valorant menus (these use in-game voice lines). *)
Definition builtin_menus : list string :=
  ["Combat"; "Tactics"; "Social"; "Strategy"]%string.

(** Animation menus (trigger animation player). *)
Definition animation_menus : list string := ["Animations"]%string.

(** Mapping of menu names to their actual Valorant key numbers. *)
Definition valorant_menu_keys : gmap string Z :=
  {[ "Combat" := 1; "Tactics" := 2; "Social" := 3; "Strategy" := 4 ]}.

Definition submenus : gmap string (list string) :=
  {[ "Combat" :=
       ["Need Support"; "Caution here!"; "Need Healing!"; "On My Way";
        "Ultimate Status"];
     "Tactics" :=
       ["I'll Take Point"; "Let's rush them!"; "Be Quiet"; "Fall Back!";
        "Play For Picks"];
     "Social" := ["Thanks"; "Commend"; "Yes"; "No"; "Sorry"; "Hello"];
     "Strategy" := ["Going A"; "Going B"; "Going C"; "Going Mid"];
     "Rocket League" :=
       ["What a save!"; "Nice shot!"; "Thanks!"; "Well played!"];
     "Animations" := ["Truck"] ]}%string.

(** The worker a terminal selection starts. *)
Inductive action :=
  | Voiceline (main_num sub_num : Z)    (* trigger_valorant_voiceline *)
  | Animation (animation_name : string) (* trigger_animation *)
  | Chat (message : string).            (* type_in_chat *)

(** The widget's navigation state, with what it has printed, the
    workers it has started and the [QTimer.singleShot(ms, self.hide)]
    timers it has armed (each list oldest first). *)
Record menu := MenuState {
  visible : bool;               (* isVisible() *)
  current_menu : string;        (* "main" or submenu name *)
  main_menu_index : Z;          (* which main menu was selected (1-based) *)
  selection_pending : bool;     (* prevent multiple selections *)
  options : list string;
  stdout : list string;
  started : list action;
  hide_timers : list Z
}.

(** The state [__init__] leaves (the window is created hidden). *)
Definition init : menu :=
  MenuState false "main" 0 false main_options [] [] [].

Definition set_visible (b : bool) (s : menu) : menu :=
  MenuState b (current_menu s) (main_menu_index s) (selection_pending s)
    (options s) (stdout s) (started s) (hide_timers s).
Definition set_current_menu (m : string) (s : menu) : menu :=
  MenuState (visible s) m (main_menu_index s) (selection_pending s)
    (options s) (stdout s) (started s) (hide_timers s).
Definition set_main_menu_index (n : Z) (s : menu) : menu :=
  MenuState (visible s) (current_menu s) n (selection_pending s)
    (options s) (stdout s) (started s) (hide_timers s).
Definition set_selection_pending (b : bool) (s : menu) : menu :=
  MenuState (visible s) (current_menu s) (main_menu_index s) b
    (options s) (stdout s) (started s) (hide_timers s).
Definition set_options (o : list string) (s : menu) : menu :=
  MenuState (visible s) (current_menu s) (main_menu_index s) (selection_pending s)
    o (stdout s) (started s) (hide_timers s).
Definition print (line : string) (s : menu) : menu :=
  MenuState (visible s) (current_menu s) (main_menu_index s) (selection_pending s)
    (options s) (stdout s ++ [line]) (started s) (hide_timers s).
Definition start (a : action) (s : menu) : menu :=
  MenuState (visible s) (current_menu s) (main_menu_index s) (selection_pending s)
    (options s) (stdout s) (started s ++ [a]) (hide_timers s).
Definition single_shot_hide (ms : Z) (s : menu) : menu :=
  MenuState (visible s) (current_menu s) (main_menu_index s) (selection_pending s)
    (options s) (stdout s) (started s) (hide_timers s ++ [ms]).

(** [self.hide()]. *)
Definition hide (s : menu) : menu := set_visible false s.

Definition toggle_visibility (s : menu) : menu :=
  if visible s then hide s
  else
    (* Reset to main menu when showing *)
    set_visible true
      (set_selection_pending false
         (set_options main_options (set_current_menu "main" s))).

(** A handler ends normally or with an exception; the state it has
    reached is kept either way. *)
Definition select_option (num : Z) (s : menu) : menu * result unit :=
  if negb (visible s) then (s, Ok ())
  else if selection_pending s then (s, Ok ())  (* already processing a selection *)
  else if decide (num > Z.of_nat (length (options s))) then (s, Ok ())
  else
    match py_index (options s) (num - 1) with
    | Raise e => (s, Raise e)
    | Ok selected =>
      let s := print ("Selected: " +:+ selected) s in
      if decide (current_menu s = "main") then
        (* Navigate to submenu *)
        match submenus !! selected with
        | Some sub =>
          (set_options sub
             (set_current_menu selected (set_main_menu_index num s)), Ok ())
        | None => (s, Ok ())
        end
      else
        (* In submenu - execute action *)
        let s := set_selection_pending true s in
        if decide (current_menu s ∈ builtin_menus) then
          match valorant_menu_keys !! current_menu s with
          | None => (s, Raise KeyError)
          | Some valorant_main_key =>
            (single_shot_hide 500 (start (Voiceline valorant_main_key num) s), Ok ())
          end
        else if decide (current_menu s ∈ animation_menus) then
          (single_shot_hide 50 (start (Animation selected) s), Ok ())
        else
          (single_shot_hide 50 (start (Chat selected) s), Ok ())
    end.

(** Go back to main menu. *)
Definition go_back (s : menu) : menu :=
  if decide (current_menu s ≠ "main")
  then set_options main_options (set_current_menu "main" s)
  else s.

(** Handle ESC key - go back or hide. *)
Definition handle_back (s : menu) : menu :=
  if decide (current_menu s ≠ "main") then go_back s else hide s.

(** An armed timer, the [i]-th of those still running, fires and
    calls [self.hide]. *)
Definition timer_fires (i : nat) (s : menu) : menu :=
  match hide_timers s !! i with
  | None => s
  | Some _ =>
    hide (MenuState (visible s) (current_menu s) (main_menu_index s)
            (selection_pending s) (options s) (stdout s) (started s)
            (delete i (hide_timers s)))
  end.

(** What the event loop handles: the signals of the hotkey bridge
    and the hide timers. *)
Inductive input :=
  | Toggle
  | Select (n : Z)
  | Back
  | TimerHide (i : nat).

Definition step (s : menu) (e : input) : menu :=
  match e with
  | Toggle => toggle_visibility s
  | Select n => (select_option n s).1
  | Back => handle_back s
  | TimerHide i => timer_fires i s
  end.

Definition run (s : menu) (es : list input) : menu := foldl step s es.

(** The states of the specification, read off the widget. *)
Inductive nav :=
  | Hidden
  | AtRoot
  | AtSubmenu (node : string) (originIndex : Z).

Definition nav_of (s : menu) : nav :=
  if negb (visible s) then Hidden
  else if decide (current_menu s = "main") then AtRoot
  else AtSubmenu (current_menu s) (main_menu_index s).

(** The options shown are those of the current menu. *)
Definition consistent (s : menu) : Prop :=
  if decide (current_menu s = "main")
  then options s = main_options
  else submenus !! current_menu s = Some (options s).

End Menu.

(** * More of the two programs *)

(** ** Editing the frame list (animation_player.py) *)

(** [l[i] = x] with Python's negative indices; out of range raises. *)
Definition py_setitem {A} (l : list A) (i : Z) (x : A) : result (list A) :=
  let n := Z.of_nat (length l) in
  let j := if decide (i < 0) then i + n else i in
  if decide (0 ≤ j < n) then Ok (<[Z.to_nat j := x]> l) else Raise IndexError.

(** [l[i], l[j] = l[j], l[i]]: the right-hand side is read first, then
    the two items are stored from left to right. *)
Definition py_swap {A} (l : list A) (i j : Z) : result (list A) :=
  at_j ← py_index l j;
  at_i ← py_index l i;
  l' ← py_setitem l i at_j;
  py_setitem l' j at_i.

(** Move selected frame up; [row] is [frames_list.currentRow()]. The
    result holds the frames and the row [setCurrentRow] selects. *)
Definition move_frame_up {A} (frames : list A) (row : Z) : result (list A * Z) :=
  if decide (row > 0) then
    frames' ← py_swap frames row (row - 1);
    mret (frames', row - 1)
  else mret (frames, row).

(** Move selected frame down. *)
Definition move_frame_down {A} (frames : list A) (row : Z) : result (list A * Z) :=
  if decide (row < Z.of_nat (length frames) - 1) then
    frames' ← py_swap frames row (row + 1);
    mret (frames', row + 1)
  else mret (frames, row).

(** ** Saving the settings (animation_player.py) *)

(** The update of [self.config] in [save_config]: the "animations"
    entry is created when missing, then the entry of the current
    animation is replaced. Item assignment exists on a dict only. *)
Definition save_config (config : pyval) (current_animation : string)
    (skip delay : pyval) : result pyval :=
  match config with
  | VDict m =>
    let m1 :=
      match m !! "animations" with
      | None => <["animations" := VDict ∅]> m
      | Some _ => m
      end in
    match m1 !! "animations" with
    | Some (VDict animations) =>
      Ok (VDict (<["animations" :=
                    VDict (<[current_animation :=
                              VDict {[ "skip_frames" := skip;
                                       "frame_delay" := delay ]}]> animations)]> m1))
    | _ => Raise TypeError
    end
  | _ => Raise TypeError
  end.

(** Save animation configuration to file: the file then holds the
    document [json.dump] writes, which [json.load] reads back as the
    same value. *)
Definition save_animation_config (config : pyval) (f : file_state) : result file_state :=
  match f with
  | FileUnreadable => Raise PermissionError
  | _ => Ok (FileHolds (Document config))
  end.

(** ** The progress label (animation_player.py) *)


(** The frame numbers a thread has signalled, in order. *)
Definition progress (t : list event) : list Z :=
  omap (fun e => match e with FramePlayed n => Some n | _ => None end) t.

(** ** The keyboard *)

Definition key_eqb (a b : key) : bool :=
  match a, b with
  | KShift, KShift | KEnter, KEnter | KCtrl, KCtrl => true
  | KChar c, KChar d => bool_decide (c = d)
  | _, _ => false
  end.

(** The keys held down after the events [t], from the keys [held]. *)
Fixpoint held_after (t : list event) (held : list key) : list key :=
  match t with
  | [] => held
  | Press k :: t' => held_after t' (k :: held)
  | Release k :: t' => held_after t' (List.filter (fun h => negb (key_eqb h k)) held)
  | _ :: t' => held_after t' held
  end.

(** [keyboard_controller.press(c)] and [release(c)] for a string: pynput
    takes a string of one character and raises [ValueError] otherwise. *)
Definition press_str (c : string) : proc unit :=
  if decide (String.length c = 1%nat) then emit [Press (KChar c)]
  else lift (Raise ValueError).

Definition release_str (c : string) : proc unit :=
  if decide (String.length c = 1%nat) then emit [Release (KChar c)]
  else lift (Raise ValueError).

(** ** The workers of the overlay (overlay.py) *)

Module Workers.
Import Menu.

(** [do_voiceline]: backslash opens the communication wheel, then the
    number of the menu and the number of the option, [str(n)] each. *)
Definition do_voiceline (main_num sub_num : Z) : proc unit :=
  press_str "\";; release_str "\";;
  emit [Sleep 0.08];;
  press_str (pretty main_num);; release_str (pretty main_num);;
  emit [Sleep 0.08];;
  press_str (pretty sub_num);; release_str (pretty sub_num).



(** The delay of the hide timer armed with each kind of action. *)
Definition settle_delay (a : action) : Z :=
  match a with
  | Voiceline _ _ => 500
  | _ => 50
  end.

(** A key as pynput hands it to [on_press]: a key code, whose [char]
    may be [None], or one of the special keys, which have no [char]. *)
Inductive pressed :=
  | KeyCode (char : option N)
  | KeyEsc
  | KeyOther.

(** [int(c)] for a character of '123456'. *)
Definition digit_1_to_6 (c : N) : option Z :=
  if ((49 <=? c) && (c <=? 54))%N then Some (Z.of_N c - 48) else None.

(** [on_press]: the signals one key press emits, in order; [is_visible]
    is what [self.isVisible()] returns. [None in '123456'] raises
    [TypeError], which [except AttributeError] does not catch. *)
Definition on_press (key : pressed) (is_visible : bool) : result (list input) :=
  match key with
  | KeyCode (Some c) =>
    let toggle := if decide (c = 46%N) then [Toggle] else [] in
    let select :=
      if is_visible then
        match digit_1_to_6 c with
        | Some n => [Select n]
        | None => []
        end
      else [] in
    Ok (toggle ++ select)
  | KeyCode None => if is_visible then Raise TypeError else Ok []
  | KeyEsc => Ok (if is_visible then [Back] else [])
  | KeyOther => Ok []
  end.

(** An event as the hotkeys and the mouse can deliver it: a Select
    carries a number from 1 to 6. *)
Definition deliverable (e : input) : Prop :=
  match e with
  | Select n => 1 ≤ n ≤ 6
  | _ => True
  end.

(** An action the shipped menus can start. *)
Definition shipped (a : action) : Prop :=
  match a with
  | Voiceline main_num sub_num => 1 ≤ main_num ≤ 4 ∧ 1 ≤ sub_num ≤ 6
  | Animation animation_name => animation_name = "Truck"
  | Chat message =>
    message ∈ ["What a save!"; "Nice shot!"; "Thanks!"; "Well played!"]
  end.

End Workers.

(** * Properties *)

(** ** The error monad over lists *)

Lemma mapM_ok_fmap {A B} (f : A → result B) (g : A → B) (l : list A) :
  (∀ x, x ∈ l → f x = Ok (g x)) → mapM f l = Ok (g <$> l).
Proof.
  induction l as [|a l IH]; intros Hf; [reflexivity|].
  cbn. rewrite (Hf a) by left. cbn.
  rewrite IH by (intros x Hx; apply Hf; by right). reflexivity.
Qed.

Lemma py_index_ok {A} (l : list A) (i : Z) (x : A) :
  0 ≤ i → l !! Z.to_nat i = Some x → py_index l i = Ok x.
Proof.
  intros Hi Hx. unfold py_index. cbv zeta.
  pose proof (lookup_lt_Some _ _ _ Hx) as Hlt.
  destruct (decide (i < 0)) as [?|_]; [lia|].
  destruct (decide (0 ≤ i < Z.of_nat (length l))) as [_|?]; [|lia].
  by rewrite Hx.
Qed.

(** ** The frame generator: closed form *)

Section FrameGeneratorFacts.
Variable sprite : list pystr.
Variables sprite_w screen_w : nat.
Variable bg : pychar.
Hypothesis sprite_width : Forall (fun line => length line = sprite_w) sprite.

Let tw : Z := Z.of_nat sprite_w.
Let sw : Z := Z.of_nat screen_w.

Lemma render_line_ok (p : Z) (sl : pystr) :
  length sl = sprite_w →
  render_line tw sw bg p sl = Ok (pixel tw bg p sl <$> range 0 sw).
Proof.
  intros Hlen. apply mapM_ok_fmap. intros x _. unfold pixel. cbv zeta.
  destruct (decide (0 ≤ x - p < tw)) as [Hx|Hx]; [|reflexivity].
  destruct (lookup_lt_is_Some_2 sl (Z.to_nat (x - p))) as [c Hc]; [subst tw; lia|].
  rewrite Hc. apply py_index_ok; [lia|done].
Qed.

Lemma render_frame_ok (p : Z) :
  render_frame sprite tw sw bg p
  = Ok ((fun sl => pixel tw bg p sl <$> range 0 sw) <$> sprite).
Proof using sprite_width.
  apply mapM_ok_fmap. intros sl Hsl. apply render_line_ok.
  by apply (proj1 (Forall_forall _ _) sprite_width).
Qed.

Lemma generate_frames_ok :
  generate_frames sprite tw sw bg
  = Ok ((fun p => (fun sl => pixel tw bg p sl <$> range 0 sw) <$> sprite)
          <$> range (- tw) (sw + 1)).
Proof using sprite_width.
  apply mapM_ok_fmap. intros p _. apply render_frame_ok.
Qed.

Lemma frame_at (p : Z) :
  - tw ≤ p ≤ sw →
  ((fun p => (fun sl => pixel tw bg p sl <$> range 0 sw) <$> sprite)
     <$> range (- tw) (sw + 1)) !! Z.to_nat (p + tw)
  = Some ((fun sl => pixel tw bg p sl <$> range 0 sw) <$> sprite).
Proof.
  intros Hp. rewrite list_lookup_fmap. unfold range.
  rewrite lookup_seqZ_lt by lia. cbn.
  by replace (- tw + Z.of_nat (Z.to_nat (p + tw))) with p by lia.
Qed.

Lemma background_line (p : Z) (sl : pystr) :
  (p ≤ - tw ∨ sw ≤ p) →
  pixel tw bg p sl <$> range 0 sw = replicate screen_w bg.
Proof.
  intros Hp. unfold range.
  rewrite (const_fmap _ _ bg).
  - rewrite length_seqZ. f_equal. lia.
  - intros i x Hx. apply lookup_seqZ in Hx as [-> Hi].
    unfold pixel. cbn. rewrite decide_False; [done|lia].
Qed.

Lemma aligned_line (sl : pystr) :
  length sl = sprite_w → (sprite_w ≤ screen_w)%nat →
  pixel tw bg 0 sl <$> range 0 sw = sl ++ replicate (screen_w - sprite_w) bg.
Proof.
  intros Hlen HSW. apply list_eq. intros i. unfold range.
  rewrite list_lookup_fmap.
  destruct (decide (i < screen_w)%nat) as [HiW|HiW].
  - rewrite lookup_seqZ_lt by lia. cbn. unfold pixel. cbn.
    replace (Z.to_nat (0 + Z.of_nat i - 0)) with i by lia.
    destruct (decide (i < sprite_w)%nat) as [HiS|HiS].
    + rewrite decide_True by lia. rewrite lookup_app_l by lia.
      destruct (lookup_lt_is_Some_2 sl i) as [c Hc]; [lia|]. by rewrite Hc.
    + rewrite decide_False by lia. rewrite lookup_app_r by lia.
      symmetry. f_equal. apply lookup_replicate_2. lia.
  - rewrite lookup_seqZ_ge by lia. cbn. symmetry.
    apply lookup_ge_None. rewrite length_app, length_replicate. lia.
Qed.
End FrameGeneratorFacts.

Lemma truck_sprite_width : Forall (fun line => length line = 26%nat) TRUCK_SPRITE.
Proof. refine (bool_decide_unpack _ _). vm_compute. exact I. Qed.

(** ** The frame generator: count, shape and content *)

(** C5: for a sprite whose lines all have width S and a screen width
    W >= S, the generator returns W + S + 1 frames (positions -S to W),
    each with as many lines as the sprite and every line W characters
    long. *)
Theorem generate_frames_count_and_shape
    (sprite : list pystr) (sprite_w screen_w : nat) (bg : pychar) :
  Forall (fun line => length line = sprite_w) sprite →
  (sprite_w ≤ screen_w)%nat →
  ∃ frames,
    generate_frames sprite (Z.of_nat sprite_w) (Z.of_nat screen_w) bg = Ok frames
    ∧ length frames = (screen_w + sprite_w + 1)%nat
    ∧ Forall (fun fr =>
                length fr = length sprite
                ∧ Forall (fun line => length line = screen_w) fr) frames.
Proof.
  intros Hsprite Hle. eexists. split; [by apply generate_frames_ok|]. split.
  - rewrite length_fmap. unfold range. rewrite length_seqZ. lia.
  - apply Forall_fmap, Forall_forall. intros p _. cbn. split.
    + by rewrite length_fmap.
    + apply Forall_fmap, Forall_forall. intros sl _. cbn.
      rewrite length_fmap. unfold range. rewrite length_seqZ. lia.
Qed.

Lemma generate_frames_count_and_shape_truck :
  ∃ frames,
    generate_truck_frames = Ok frames
    ∧ length frames = 53%nat
    ∧ Forall (fun fr =>
                length fr = 13%nat
                ∧ Forall (fun line => length line = 26%nat) fr) frames.
Proof.
  apply (generate_frames_count_and_shape TRUCK_SPRITE 26 26 BG_CHAR);
    [refine (bool_decide_unpack _ _); vm_compute; exact I | lia].
Defined.

(** C6: in the generated sequence the frames at positions -S and W are
    all background, the frame at position 0 holds the sprite at the
    left edge (it is the sprite itself when W = S, as for the truck),
    and in every frame the character of line r at column x is the
    sprite's character at column x - position when that lies in
    [0, S), the background glyph otherwise. The frame at position p
    has index p + S. *)
Theorem generate_frames_content
    (sprite : list pystr) (sprite_w screen_w : nat) (bg : pychar) :
  Forall (fun line => length line = sprite_w) sprite →
  (sprite_w ≤ screen_w)%nat →
  ∃ frames,
    generate_frames sprite (Z.of_nat sprite_w) (Z.of_nat screen_w) bg = Ok frames
    ∧ frames !! 0%nat = Some (replicate (length sprite) (replicate screen_w bg))
    ∧ frames !! (screen_w + sprite_w)%nat
      = Some (replicate (length sprite) (replicate screen_w bg))
    ∧ frames !! sprite_w
      = Some ((fun sl => sl ++ replicate (screen_w - sprite_w) bg) <$> sprite)
    ∧ (screen_w = sprite_w → frames !! sprite_w = Some sprite)
    ∧ ∀ (p : Z) (r x : nat) (sl : pystr),
        - Z.of_nat sprite_w ≤ p ≤ Z.of_nat screen_w →
        sprite !! r = Some sl →
        (x < screen_w)%nat →
        ∃ fr line c,
          frames !! Z.to_nat (p + Z.of_nat sprite_w) = Some fr
          ∧ fr !! r = Some line
          ∧ line !! x = Some c
          ∧ ((0 ≤ Z.of_nat x - p < Z.of_nat sprite_w
              ∧ sl !! Z.to_nat (Z.of_nat x - p) = Some c)
             ∨ (¬ (0 ≤ Z.of_nat x - p < Z.of_nat sprite_w) ∧ c = bg)).
Proof.
  intros Hsprite Hle. eexists. split; [by apply generate_frames_ok|].
  pose proof (frame_at sprite sprite_w screen_w bg) as Hat.
  assert (Hbg : ∀ p, p ≤ - Z.of_nat sprite_w ∨ Z.of_nat screen_w ≤ p →
            (fun sl => pixel (Z.of_nat sprite_w) bg p sl
                         <$> range 0 (Z.of_nat screen_w)) <$> sprite
            = replicate (length sprite) (replicate screen_w bg)).
  { intros p Hp. apply const_fmap. intros i sl _. by apply background_line. }
  assert (Hzero : (fun sl => pixel (Z.of_nat sprite_w) bg 0 sl
                               <$> range 0 (Z.of_nat screen_w)) <$> sprite
                  = (fun sl => sl ++ replicate (screen_w - sprite_w) bg) <$> sprite).
  { apply list_fmap_ext. intros i sl Hsl. apply aligned_line; [|done].
    eapply (proj1 (Forall_lookup _ _) Hsprite); eauto. }
  repeat split.
  - specialize (Hat (- Z.of_nat sprite_w)).
    replace (Z.to_nat (- Z.of_nat sprite_w + Z.of_nat sprite_w)) with 0%nat in Hat by lia.
    rewrite Hat by lia. f_equal. apply Hbg. lia.
  - specialize (Hat (Z.of_nat screen_w)).
    replace (Z.to_nat (Z.of_nat screen_w + Z.of_nat sprite_w))
      with (screen_w + sprite_w)%nat in Hat by lia.
    rewrite Hat by lia. f_equal. apply Hbg. lia.
  - specialize (Hat 0).
    replace (Z.to_nat (0 + Z.of_nat sprite_w)) with sprite_w in Hat by lia.
    rewrite Hat by lia. by f_equal.
  - intros ->. specialize (Hat 0).
    replace (Z.to_nat (0 + Z.of_nat sprite_w)) with sprite_w in Hat by lia.
    rewrite Hat by lia. f_equal. rewrite Hzero.
    rewrite Nat.sub_diag. cbn. rewrite <- (list_fmap_id sprite) at 2.
    apply list_fmap_ext. intros i sl _. cbn. apply app_nil_r.
  - intros p r x sl Hp Hr Hx.
    rewrite Hat by done.
    eexists _, _, _; split; [reflexivity|].
    rewrite list_lookup_fmap, Hr; cbn.
    split; [reflexivity|].
    unfold range; rewrite list_lookup_fmap, lookup_seqZ_lt by lia; cbn.
    split; [reflexivity|].
    unfold pixel; cbv zeta.
    replace (0 + Z.of_nat x - p) with (Z.of_nat x - p) by lia.
    destruct (decide (0 ≤ Z.of_nat x - p < Z.of_nat sprite_w)) as [Hin|Hout];
      [left|right; done].
    split; [done|].
    assert (length sl = sprite_w) as Hlen
      by (eapply (proj1 (Forall_lookup _ _) Hsprite); eauto).
    destruct (lookup_lt_is_Some_2 sl (Z.to_nat (Z.of_nat x - p))) as [c Hc]; [lia|].
    by rewrite Hc.
Qed.

(** The truck: frames 0 and 52 are background, frame 26 is the sprite. *)
Lemma generate_frames_content_truck :
  ∃ frames,
    generate_truck_frames = Ok frames
    ∧ frames !! 0%nat = Some (replicate 13 (replicate 26 BG_CHAR))
    ∧ frames !! 52%nat = Some (replicate 13 (replicate 26 BG_CHAR))
    ∧ frames !! 26%nat = Some TRUCK_SPRITE.
Proof.
  destruct (generate_frames_content TRUCK_SPRITE 26 26 BG_CHAR)
    as (frames & Hgen & Hfirst & Hlast & _ & Hsprite & _);
    [refine (bool_decide_unpack _ _); vm_compute; exact I | lia |].
  exists frames. repeat split; [exact Hgen | exact Hfirst | exact Hlast |].
  exact (Hsprite eq_refl).
Defined.

(** ** The playback subsequence *)








Lemma alloc_list_oids {A} (next : nat) (l : list A) :
  oid <$> alloc_list next l = seq next (length l).
Proof.
  unfold alloc_list. revert next. induction l as [|x l IH]; intros next; [done|].
  cbn. rewrite Nat.add_0_r. f_equal. rewrite <- IH.
  f_equal. apply imap_ext. intros i y _. cbn. f_equal. lia.
Qed.

Lemma alloc_list_distinct {A} (next : nat) (l : list A) :
  NoDup (oid <$> alloc_list next l).
Proof. rewrite alloc_list_oids. apply NoDup_seq. Qed.

Lemma truck_frames_distinct : NoDup (oid <$> TRUCK_ANIMATION).
Proof.
  unfold TRUCK_ANIMATION. destruct generate_truck_frames.
  - apply alloc_list_distinct.
  - constructor.
Qed.





(** When the same object sits at two indices the count is by object:
    the hypothesis of distinct objects cannot be dropped from
    [frames_to_play_last_once]. *)
Remark frames_to_play_aliased :
  let a := Obj 7 (text "x") in
  let b := Obj 8 (text "y") in
  frames_to_play [a; b; a] (VInt 2) = Ok [a; a]
  ∧ count_is a [a; a] = 2%nat.
Proof. split; reflexivity. Qed.

(** ** End to end: the truck animation *)

(** C1, as stated, fails: with "Truck" mapped to skip_frames 5 and
    frame_delay 0.5 the overlay does not make 11 dispatches. *)
Lemma truck_playback_not_11_dispatches :
  length (dispatched (play_animation "Truck" truck_config_file).1) ≠ 11%nat.
Proof. vm_compute. discriminate. Qed.

(** C1, amended: with "Truck" mapped to skip_frames 5 and frame_delay
    0.5, playback of the 53-frame truck animation dispatches exactly
    the frames at indices 0, 5, 10, ..., 50 and 52, one clipboard
    submission each: 12 dispatches, from the overlay and from the
    player alike. *)
Theorem truck_playback_dispatches :
  let played := frames_at [0; 5; 10; 15; 20; 25; 30; 35; 40; 45; 50; 52]%nat in
  length TRUCK_ANIMATION = 53%nat
  ∧ length played = 12%nat
  ∧ frames_to_play TRUCK_ANIMATION (VInt 5) = Ok played
  ∧ dispatched (play_animation "Truck" truck_config_file).1 = payload_of <$> played
  ∧ ∃ self,
      player_init truck_config_file = Ok self
      ∧ dispatched (play_thread self never_stopped).1 = payload_of <$> played.
Proof.
  cbv zeta. do 4 (split; [vm_compute; reflexivity|]).
  exists (Player TRUCK_ANIMATION (VInt 5) (VFloat 0.5)).
  split; vm_compute; reflexivity.
Qed.

(** The layout of the specification's example, with "Truck" at the
    top level and no "animations" key, plays the same way: every
    setting is then read as its default. *)
Example truck_playback_top_level_layout :
  play_animation "Truck"
    (FileHolds (Document (VDict {[ "Truck" :=
       VDict {[ "skip_frames" := VInt 5; "frame_delay" := VFloat 0.5 ]} ]})))
  = play_animation "Truck" truck_config_file.
Proof. vm_compute. reflexivity. Qed.

(** ** Suspension between frames *)

(** C8 fails on the overlay's copy of the loop: [play_animation]
    sleeps for frame_delay after every frame it submits, the final one
    included, so the thread's last event is that sleep. *)
Theorem overlay_suspends_after_final_frame :
  let t := (play_animation "Truck" FileMissing).1 in
  length (dispatched t) = 12%nat
  ∧ count_sleeps 0.5 t = 12%nat
  ∧ last t = Some (Sleep 0.5).
Proof. cbv zeta. repeat split; vm_compute; reflexivity. Qed.

(** The player's loop on the same input: 12 frames, 11 suspensions,
    none after the final frame. *)
Lemma player_suspends_between_frames :
  ∃ self,
    player_init FileMissing = Ok self
    ∧ let t := (play_thread self never_stopped).1 in
      length (dispatched t) = 12%nat
      ∧ count_sleeps 0.5 t = 11%nat
      ∧ drop (length t - 3) t = [Release KEnter; FramePlayed 12; AnimationComplete].
Proof.
  exists (Player TRUCK_ANIMATION (VInt 5) (VFloat 0.5)).
  cbv zeta. repeat split; vm_compute; reflexivity.
Qed.

Lemma proc_bind_emit {A} (t : list event) (k : unit → proc A) :
  emit t ≫= k = (t ++ (k ()).1, (k ()).2).
Proof. unfold emit. cbn. by destruct (k ()). Qed.

Lemma round_timeout_in_range (d : Q) :
  in_sleep_range d →
  0 ≤ round_timeout (d * inject_Z NS_PER_SEC) ≤ TIMEOUT_MAX.
Proof.
  intros [Hd Hmax]. unfold round_timeout.
  assert (0 <= d * inject_Z NS_PER_SEC)%Q as Hns.
  { apply Qmult_le_0_compat; [done|]. by unfold Qle. }
  destruct (Qlt_le_dec (d * inject_Z NS_PER_SEC) 0) as [Hlt|_].
  { by apply Qlt_not_le in Hlt. }
  split.
  - apply Qceiling_resp_le in Hns. by change (Qceiling 0) with 0 in Hns.
  - apply Qceiling_resp_le in Hmax. by rewrite Qceiling_Z in Hmax.
Qed.

Lemma py_sleep_float (d : Q) :
  in_sleep_range d → py_sleep (VFloat d) = emit [Sleep d].
Proof.
  intros Hd. apply round_timeout_in_range in Hd.
  unfold py_sleep, timeout_of. unfold TIMEOUT_MIN, TIMEOUT_MAX in *.
  destruct (decide _) as [_|Hno]; [|lia]. cbn.
  destruct (decide _) as [Hneg|_]; [lia|done].
Qed.

(** The player's loop follows the specified schedule, whatever the
    interface thread does to [is_playing]: its test [i < len - 1]
    singles out the last frame. *)
(** [in_sleep_range] is the whole of what [time.sleep] takes of floats. *)
Lemma py_sleep_float_only (d : Q) :
  py_sleep (VFloat d) = emit [Sleep d] → in_sleep_range d.
Proof.
  unfold py_sleep, timeout_of, in_sleep_range.
  remember (d * inject_Z NS_PER_SEC)%Q as ns eqn:Hns.
  destruct (decide _) as [[_ Hmax]|]; [|done]. cbn -[round_timeout].
  destruct (decide _) as [|Hpos]; [done|]. intros _.
  unfold round_timeout in *.
  destruct (Qlt_le_dec ns 0) as [Hlt|Hle].
  - destruct Hpos. rewrite Zlt_Qlt.
    eapply Qle_lt_trans; [apply Qfloor_le|exact Hlt].
  - split.
    + destruct (Qlt_le_dec d 0) as [Hneg|]; [|done].
      exfalso. apply (Qle_not_lt _ _ Hle). subst ns.
      eapply Qlt_le_trans;
        [apply (Qmult_lt_compat_r d 0 (inject_Z NS_PER_SEC)); done|].
      by unfold Qle.
    + eapply Qle_trans; [apply Qle_ceiling|]. by rewrite <- Zle_Qle.
Qed.



(** The overlay's loop sleeps after every frame it submits. *)
Lemma overlay_loop_trace (d : Q) (rest : list (obj frame)) :
  in_sleep_range d →
  overlay_loop (VFloat d) rest
  = (rest ≫= (fun f =>
                if truthy (payload_of f)
                then type_line_in_chat (payload_of f) ++ [Sleep d]
                else []),
     Ok ()).
Proof.
  intros Hd. induction rest as [|f rest IH]; [done|].
  cbn [overlay_loop]. rewrite IH. fold (payload_of f). rewrite bind_cons.
  destruct (truthy (payload_of f)); [|done].
  rewrite py_sleep_float by done. by rewrite !proc_bind_emit.
Qed.

(** ** Loading the configuration *)

(** C3, as stated, fails: a config file that is not a JSON document
    makes [load_animation_config] raise, in the player's start-up and
    in the overlay's playback thread alike. *)
Lemma load_malformed_raises :
  load_animation_config (FileHolds Malformed) = Raise JSONDecodeError
  ∧ load_animation_config (FileHolds Malformed) ≠ Ok default_config
  ∧ player_init (FileHolds Malformed) = Raise JSONDecodeError
  ∧ play_animation "Truck" (FileHolds Malformed) = ([], Raise JSONDecodeError).
Proof. repeat split; done. Qed.

(** A JSON document of another shape is not read permissively
    either: [get] exists on objects only. *)
Remark anim_settings_wrong_shape :
  anim_settings (VList []) "Truck" = Raise AttributeError
  ∧ anim_settings (VDict {[ "animations" := VInt 3 ]}) "Truck"
    = Raise AttributeError.
Proof. split; reflexivity. Qed.

Lemma anim_settings_entry (cfg anims entry : gmap string pyval) (name : string) :
  cfg !! "animations" = Some (VDict anims) →
  anims !! name = Some (VDict entry) →
  anim_settings (VDict cfg) name
  = Ok (default (VInt 5) (entry !! "skip_frames"),
        default (VFloat 0.5) (entry !! "frame_delay")).
Proof. intros Ha He. unfold anim_settings. cbn. rewrite Ha. cbn. by rewrite He. Qed.

(** C3, amended: a missing config file is not an error, [load] then
    returns the built-in default set (one animation, "Truck", stride 5,
    delay 0.5 s); a file that holds a JSON document is returned as it
    is, and when it is an object whose "animations" value and whose
    entry for the animation, where present, are objects, every field
    absent from it is read as its default, field by field. *)
Theorem load_fills_defaults :
  load_animation_config FileMissing = Ok default_config
  ∧ anim_settings default_config "Truck" = Ok (VInt 5, VFloat 0.5)
  ∧ player_init FileMissing = Ok (Player TRUCK_ANIMATION (VInt 5) (VFloat 0.5))
  ∧ (∀ v, load_animation_config (FileHolds (Document v)) = Ok v)
  ∧ (∀ (cfg : gmap string pyval) name,
       cfg !! "animations" = None →
       anim_settings (VDict cfg) name = Ok (VInt 5, VFloat 0.5))
  ∧ (∀ (cfg anims : gmap string pyval) name,
       cfg !! "animations" = Some (VDict anims) →
       anims !! name = None →
       anim_settings (VDict cfg) name = Ok (VInt 5, VFloat 0.5))
  ∧ (∀ (cfg anims entry : gmap string pyval) name,
       cfg !! "animations" = Some (VDict anims) →
       anims !! name = Some (VDict entry) →
       anim_settings (VDict cfg) name
       = Ok (default (VInt 5) (entry !! "skip_frames"),
             default (VFloat 0.5) (entry !! "frame_delay"))).
Proof.
  split; [done|]. split; [by vm_compute|]. split; [by vm_compute|].
  split; [done|]. split; [|split].
  - intros cfg name Hc. unfold anim_settings. cbn. by rewrite Hc.
  - intros cfg anims name Ha Hn. unfold anim_settings. cbn. rewrite Ha. cbn.
    by rewrite Hn.
  - apply anim_settings_entry.
Qed.

(** A file that sets only the stride: the delay is the default. *)
Lemma load_fills_defaults_stride_only :
  anim_settings
    (VDict {[ "animations" := VDict {[ "Truck" := VDict {[ "skip_frames" := VInt 3 ]} ]} ]})
    "Truck"
  = Ok (VInt 3, VFloat 0.5).
Proof.
  refine (eq_trans
            (proj2 (proj2 (proj2 (proj2 (proj2 (proj2 load_fills_defaults)))))
               {[ "animations" := VDict {[ "Truck" := VDict {[ "skip_frames" := VInt 3 ]} ]} ]}
               {[ "Truck" := VDict {[ "skip_frames" := VInt 3 ]} ]}
               {[ "skip_frames" := VInt 3 ]} "Truck" _ _) _);
    vm_compute; reflexivity.
Defined.

(** ** The menu state machine *)

Module MenuFacts.
Import Menu.

Ltac fields s :=
  destruct s as [vis cur idx pend opts out acts timers]; cbn in *; subst.

Lemma builtin_menus_have_keys (m : string) :
  m ∈ builtin_menus → is_Some (valorant_menu_keys !! m).
Proof.
  unfold builtin_menus. rewrite !elem_of_cons, elem_of_nil.
  intros [->|[->|[->|[->|[]]]]]; by eexists.
Qed.

Lemma select_option_pending (n : Z) (s : menu) :
  selection_pending s = true → select_option n s = (s, Ok ()).
Proof.
  intros Hp. unfold select_option. rewrite Hp. by destruct (visible s).
Qed.

(** One event other than Toggle: a set lock stays set and nothing is
    started; with the lock free, either nothing is started and the lock
    stays free, or the lock is taken and at most one worker started. *)
Lemma step_keeps_lock (e : input) (s : menu) :
  e ≠ Toggle →
  selection_pending s = true →
  started (step s e) = started s ∧ selection_pending (step s e) = true.
Proof.
  intros He Hp. destruct e as [|n| |i]; [done| | |]; cbn.
  - by rewrite select_option_pending.
  - unfold handle_back, go_back. fields s. by repeat case_decide.
  - unfold timer_fires. fields s. by destruct (timers !! i).
Qed.

Lemma step_takes_lock (e : input) (s : menu) :
  e ≠ Toggle →
  selection_pending s = false →
  (started (step s e) = started s ∧ selection_pending (step s e) = false)
  ∨ (selection_pending (step s e) = true
     ∧ (length (started (step s e)) ≤ length (started s) + 1)%nat).
Proof.
  intros He Hp. destruct e as [|n| |i]; [done| | |]; cbn.
  - unfold select_option. fields s. destruct vis; cbn; [|by left].
    case_decide; [by left|].
    destruct (py_index opts (n - 1)) as [selected|]; [|by left]. cbn.
    destruct (decide (cur = "main")) as [->|Hcur].
    + left. by destruct (submenus !! selected).
    + right.
      destruct (decide (cur ∈ builtin_menus));
        [destruct (valorant_menu_keys !! cur)
        |destruct (decide (cur ∈ animation_menus))];
        cbn; rewrite ?length_app; cbn; split; (done || lia).
  - left. unfold handle_back, go_back. fields s. by repeat case_decide.
  - left. unfold timer_fires. fields s. by destruct (timers !! i).
Qed.

Lemma run_keeps_lock (es : list input) (s : menu) :
  Toggle ∉ es →
  selection_pending s = true →
  started (run s es) = started s.
Proof.
  revert s. induction es as [|e es IH]; intros s Hes Hp; [done|].
  apply not_elem_of_cons in Hes as [He Hes].
  destruct (step_keeps_lock e s) as [Hst Hp']; [done..|].
  change (run s (e :: es)) with (run (step s e) es).
  by rewrite IH.
Qed.

(** Between two Toggles the menu starts at most one worker. *)
Lemma session_dispatches_at_most_once (es : list input) (s : menu) :
  Toggle ∉ es →
  selection_pending s = false →
  (length (started (run s es)) ≤ length (started s) + 1)%nat.
Proof.
  revert s. induction es as [|e es IH]; intros s Hes Hp; [cbn; lia|].
  apply not_elem_of_cons in Hes as [He Hes].
  change (run s (e :: es)) with (run (step s e) es).
  destruct (step_takes_lock e s) as [[Hst Hp']|[Hp' Hlen]]; [done..| |].
  - rewrite <- Hst. by apply IH.
  - by rewrite run_keeps_lock.
Qed.

(** C4, as stated, fails: after a terminal Select in "Combat" the
    lock is set, the overlay is still at the submenu until the hide
    timer fires, and Back returns to the root with the lock still
    set. *)
Lemma back_keeps_selection_pending :
  let s := run init [Toggle; Select 3; Select 1] in
  nav_of s = AtSubmenu "Combat" 3
  ∧ nav_of (handle_back s) = AtRoot
  ∧ selection_pending (handle_back s) = true.
Proof. cbv zeta. repeat split; vm_compute; reflexivity. Qed.

(** C4, amended: for every state AtSubmenu(node, originIndex), Back
    moves the menu to AtRoot with the main options and leaves
    selection_pending, like every other field, as it was; Back at
    AtRoot hides the overlay, as Toggle does from a visible state. *)
Theorem back_transitions (s : menu) :
  (∀ node originIndex,
     nav_of s = AtSubmenu node originIndex →
     nav_of (handle_back s) = AtRoot
     ∧ handle_back s = set_options main_options (set_current_menu "main" s)
     ∧ selection_pending (handle_back s) = selection_pending s)
  ∧ (nav_of s = AtRoot →
     handle_back s = hide s
     ∧ toggle_visibility s = hide s
     ∧ nav_of (handle_back s) = Hidden).
Proof.
  unfold nav_of, handle_back, go_back, toggle_visibility. split.
  - intros node originIndex Hs. fields s.
    destruct vis; [|done]. cbn in *.
    repeat case_decide; by simplify_eq.
  - intros Hs. fields s. destruct vis; [|done]. cbn in *.
    repeat case_decide; by simplify_eq.
Qed.

Lemma back_transitions_from_combat :
  let s := run init [Toggle; Select 3] in
  nav_of (handle_back s) = AtRoot
  ∧ handle_back s = set_options main_options (set_current_menu "main" s)
  ∧ selection_pending (handle_back s) = selection_pending s.
Proof.
  exact (proj1 (back_transitions (run init [Toggle; Select 3])) "Combat" 3
           ltac:(vm_compute; reflexivity)).
Defined.

(** C7: in a visible submenu with the lock free, a Select of one of
    its options takes the lock and starts exactly one worker; every
    further Select leaves the state as it is, so Select(n1) followed by
    Select(n2) has dispatched one action, and no sequence of Select,
    Back and timer events, up to the next Toggle, dispatches more than
    one. *)
Theorem second_select_is_noop (s : menu) (n1 : Z) :
  visible s = true →
  current_menu s ≠ "main" →
  selection_pending s = false →
  1 ≤ n1 ≤ Z.of_nat (length (options s)) →
  let s1 := (select_option n1 s).1 in
  selection_pending s1 = true
  ∧ visible s1 = true
  ∧ (∃ a, started s1 = started s ++ [a])
  ∧ (∀ n2, select_option n2 s1 = (s1, Ok ()))
  ∧ (∀ n2, run s [Select n1; Select n2] = s1)
  ∧ (∀ es, Toggle ∉ es →
         (length (started (run s es)) ≤ length (started s) + 1)%nat).
Proof.
  intros Hv Hc Hp Hn. cbv zeta.
  assert (selection_pending (select_option n1 s).1 = true
          ∧ visible (select_option n1 s).1 = true
          ∧ ∃ a, started (select_option n1 s).1 = started s ++ [a])
    as (Hp1 & Hv1 & Ha).
  { fields s. unfold select_option. cbn.
    rewrite decide_False by lia.
    destruct (lookup_lt_is_Some_2 opts (Z.to_nat (n1 - 1))) as [sel Hsel]; [lia|].
    rewrite (py_index_ok _ _ sel) by (done || lia).
    cbn. rewrite decide_False by done.
    repeat case_decide; cbn.
    - destruct (builtin_menus_have_keys cur) as [k ->]; [done|]. cbn. eauto.
    - eauto.
    - eauto. }
  repeat split; [done|done|done| | |].
  - intros n2. by apply select_option_pending.
  - intros n2. change (run s [Select n1; Select n2])
      with (select_option n2 (select_option n1 s).1).1.
    by rewrite select_option_pending.
  - intros es Hes. by apply session_dispatches_at_most_once.
Qed.

(** Select(1) then Select(2) in "Combat". *)
Lemma second_select_is_noop_combat :
  let s := run init [Toggle; Select 3] in
  let s1 := (select_option 1 s).1 in
  selection_pending s1 = true
  ∧ visible s1 = true
  ∧ (∃ a, started s1 = started s ++ [a])
  ∧ (∀ n2, select_option n2 s1 = (s1, Ok ()))
  ∧ (∀ n2, run s [Select 1; Select n2] = s1)
  ∧ (∀ es, Toggle ∉ es →
         (length (started (run s es)) ≤ length (started s) + 1)%nat).
Proof.
  apply (second_select_is_noop (run init [Toggle; Select 3]) 1);
    [reflexivity | vm_compute; discriminate | reflexivity | vm_compute; split; discriminate].
Defined.

Example select_1_then_2_dispatches_once :
  started (run init [Toggle; Select 3; Select 1; Select 2]) = [Voiceline 1 1].
Proof. reflexivity. Qed.

(** *** Every main option is a submenu *)

Lemma init_consistent : consistent init.
Proof. reflexivity. Qed.

Lemma step_consistent (s : menu) (e : input) :
  consistent s → consistent (step s e).
Proof.
  intros Hs. destruct e as [|n| |i]; cbn.
  - unfold toggle_visibility. fields s. by destruct vis.
  - unfold select_option. fields s.
    destruct vis, pend; cbn; try done.
    case_decide; [done|].
    destruct (py_index opts (n - 1)) as [selected|]; [|done]. cbn.
    destruct (decide (cur = "main")) as [->|Hcur].
    + destruct (submenus !! selected) as [sub|] eqn:Hsub; cbn; [|done].
      unfold consistent. cbn.
      case_decide as Hsel; [by rewrite Hsel in Hsub|done].
    + assert (∀ s', current_menu s' = cur → options s' = opts → consistent s')
        as Hkeep.
      { intros s' Hc Ho. unfold consistent in *. cbn in *.
        rewrite Hc, Ho. by rewrite decide_False in * by done. }
      destruct (decide (cur ∈ builtin_menus));
        [destruct (valorant_menu_keys !! cur)
        |destruct (decide (cur ∈ animation_menus))];
        by apply Hkeep.
  - unfold handle_back, go_back. fields s. unfold consistent in *. cbn in *.
    repeat case_decide; done.
  - unfold timer_fires. fields s. by destruct (timers !! i).
Qed.

Lemma run_consistent (es : list input) (s : menu) :
  consistent s → consistent (run s es).
Proof.
  revert s. induction es as [|e es IH]; intros s Hs; [done|].
  apply IH. by apply step_consistent.
Qed.

(** C10, as stated, fails: a terminal Select in "Combat" followed by
    Back leaves the overlay at the root with the lock set, and there
    no Select navigates: each of the six is ignored. *)
Lemma select_at_root_ignored_while_pending :
  let s := run init [Toggle; Select 3; Select 1; Back] in
  nav_of s = AtRoot
  ∧ selection_pending s = true
  ∧ Forall (fun n => nav_of (step s (Select n)) = AtRoot) [1; 2; 3; 4; 5; 6].
Proof.
  cbv zeta. do 2 (split; [vm_compute; reflexivity|]).
  repeat (constructor; [vm_compute; reflexivity|]). constructor.
Qed.

(** C10, amended: the main menu has six options and each is a key of
    the submenu table, so in every state the overlay can reach, a
    Select(n) with 1 <= n <= 6 from the root opens the submenu named by
    option n and records n as the origin index, unless a selection is
    pending: the branch for a main option without a submenu is never
    taken. While a selection is pending, at the root as anywhere else,
    a Select changes nothing. *)
Theorem main_options_resolve :
  length main_options = 6%nat
  ∧ Forall (fun o => is_Some (submenus !! o)) main_options
  ∧ (∀ (es : list input) (n : Z),
       1 ≤ n ≤ 6 →
       nav_of (run init es) = AtRoot →
       selection_pending (run init es) = false →
       ∃ name sub,
         main_options !! Z.to_nat (n - 1) = Some name
         ∧ submenus !! name = Some sub
         ∧ nav_of (step (run init es) (Select n)) = AtSubmenu name n
         ∧ options (step (run init es) (Select n)) = sub)
  ∧ ∀ (es : list input) (n : Z),
      selection_pending (run init es) = true →
      step (run init es) (Select n) = run init es.
Proof.
  split; [done|]. split.
  { unfold main_options. repeat constructor; by eexists. }
  split; [|intros es n Hpend; cbn; by rewrite select_option_pending].
  intros es n Hn Hroot Hpend.
  pose proof (run_consistent es init init_consistent) as Hcons.
  destruct (run init es) as [vis cur idx pend opts out acts timers].
  unfold nav_of, consistent in *. cbn in *.
  destruct vis; [|done]. cbn in *.
  destruct (decide (cur = "main")) as [->|]; [|done]. subst.
  assert (n = 1 ∨ n = 2 ∨ n = 3 ∨ n = 4 ∨ n = 5 ∨ n = 6)
    as [->|[->|[->|[->|[->| ->]]]]] by lia;
    eexists _, _; repeat split; vm_compute; reflexivity.
Qed.

(** The third option of the freshly shown menu opens "Combat"; after
    a selection there and Back, the second option opens nothing. *)
Lemma main_options_resolve_combat :
  (∃ name sub,
     main_options !! Z.to_nat (3 - 1) = Some name
     ∧ submenus !! name = Some sub
     ∧ nav_of (step (run init [Toggle]) (Select 3)) = AtSubmenu name 3
     ∧ options (step (run init [Toggle]) (Select 3)) = sub)
  ∧ step (run init [Toggle; Select 3; Select 1; Back]) (Select 2)
    = run init [Toggle; Select 3; Select 1; Back].
Proof.
  split.
  - apply (proj1 (proj2 (proj2 main_options_resolve)) [Toggle] 3);
      [lia | reflexivity | reflexivity].
  - apply (proj2 (proj2 (proj2 main_options_resolve))
             [Toggle; Select 3; Select 1; Back] 2).
    vm_compute. reflexivity.
Defined.
End MenuFacts.

(** ** The wire formatter *)

Ltac mod_lia := zify; Z.to_euclidean_division_equations; lia.

Lemma rstrip_snoc_space (s : pystr) (c : pychar) :
  py_isspace c = true → rstrip (s ++ [c]) = rstrip s.
Proof.
  intros Hc. induction s as [|x s IH]; cbn; [by rewrite Hc|]. by rewrite IH.
Qed.

Lemma rstrip_snoc_keep (s : pystr) (c : pychar) :
  py_isspace c = false → rstrip (s ++ [c]) = s ++ [c].
Proof.
  intros Hc. induction s as [|x s IH]; cbn; [by rewrite Hc|].
  rewrite IH. by destruct s.
Qed.

Lemma rstrip_keep (s : pystr) (c : pychar) :
  last s = Some c → py_isspace c = false → rstrip s = s.
Proof.
  intros Hlast Hc. destruct (last_Some s c) as [[s' ->] _]; [done|].
  by apply rstrip_snoc_keep.
Qed.

Lemma foldl_spaced (frame_lines : list pystr) (acc : pystr) :
  foldl (fun result line => result ++ (line ++ [SPACE])) acc frame_lines
  = acc ++ concat ((fun line => line ++ [SPACE]) <$> frame_lines).
Proof.
  revert acc. induction frame_lines as [|line rest IH]; intros acc; cbn.
  - by rewrite app_nil_r.
  - rewrite IH. by rewrite <- !app_assoc.
Qed.

Lemma format_frame_concat (frame_lines : list pystr) :
  format_frame_for_valorant frame_lines
  = rstrip (concat ((fun line => line ++ [SPACE]) <$> frame_lines)).
Proof. unfold format_frame_for_valorant. by rewrite foldl_spaced. Qed.

Lemma concat_spaced_joined (frame_lines : list pystr) :
  frame_lines ≠ [] →
  concat ((fun line => line ++ [SPACE]) <$> frame_lines)
  = joined frame_lines ++ [SPACE].
Proof.
  induction frame_lines as [|line rest IH]; intros Hne; [done|].
  destruct rest as [|line' rest].
  - cbn. by rewrite app_nil_r.
  - rewrite fmap_cons, concat_cons, IH by done.
    cbn. by rewrite <- !app_assoc.
Qed.

Lemma last_joined (frame_lines : list pystr) (final : pystr) :
  last frame_lines = Some final → final ≠ [] →
  last (joined frame_lines) = last final.
Proof.
  induction frame_lines as [|line rest IH]; intros Hlast Hne; [done|].
  destruct rest as [|line' rest].
  - cbn in Hlast. by simplify_eq.
  - rewrite last_cons_cons in Hlast. specialize (IH Hlast Hne).
    change (joined (line :: line' :: rest))
      with (line ++ SPACE :: joined (line' :: rest)).
    remember (joined (line' :: rest)) as J eqn:HJ. clear HJ.
    rewrite last_app. destruct J as [|c t].
    + symmetry in IH. by apply last_None in IH.
    + rewrite last_cons_cons, <- IH.
      destruct (last (c :: t)) eqn:E; [done|]. by apply last_None in E.
Qed.

(** The character loop of [play_thread] over one more line that does
    not cross a multiple of 26. *)
Lemma space_every_26_run (line rest : pystr) (j : nat) :
  (j mod 26 + length line ≤ 26)%nat →
  space_every_26 j (line ++ rest)
  = line ++ (if decide (j mod 26 + length line = 26)%nat then [SPACE] else [])
         ++ space_every_26 (j + length line) rest.
Proof.
  revert j. induction line as [|c line IH]; intros j Hj; cbn [length] in *.
  - rewrite decide_False by mod_lia. cbn [app]. by rewrite Nat.add_0_r.
  - cbn [app space_every_26]. f_equal.
    destruct (decide ((j + 1) mod 26 = 0)%nat) as [Hz|Hnz].
    + destruct line; [|cbn [length] in Hj; mod_lia].
      cbn [app length]. rewrite decide_True by mod_lia.
      cbn [app]. do 2 f_equal. lia.
    + rewrite IH by mod_lia. cbn [app]. f_equal.
      replace (S j + length line)%nat with (j + S (length line))%nat by lia.
      f_equal. repeat case_decide; try done; mod_lia.
Qed.

Lemma space_every_26_lines (frame_lines : list pystr) (j : nat) :
  Forall (fun line => length line = 26%nat) frame_lines →
  (j mod 26 = 0)%nat →
  space_every_26 j (concat frame_lines)
  = concat ((fun line => line ++ [SPACE]) <$> frame_lines).
Proof.
  intros Hw. revert j. induction Hw as [|line rest Hlen _ IH]; intros j Hj; [done|].
  rewrite fmap_cons, !concat_cons, space_every_26_run by lia.
  rewrite decide_True by lia. rewrite IH by mod_lia.
  by rewrite <- app_assoc.
Qed.

(** C9, as stated, fails: a single 26-character line that ends in a
    space is not formatted to that line, [rstrip] removes the line's
    own last character with the delimiter. *)
Lemma format_trims_line_ending_in_space :
  let line := text "abcdefghijklmnopqrstuvwxy " in
  length line = 26%nat
  ∧ format_frame_for_valorant [line] ≠ line
  ∧ format_frame_for_valorant [line] = text "abcdefghijklmnopqrstuvwxy".
Proof.
  cbv zeta. split; [reflexivity|]. split; [vm_compute; discriminate | reflexivity].
Qed.

(** C9, amended: for a frame of 26-character lines the formatter
    yields the characters of the lines with a single space after every
    run of 26 characters, the same payload as the loop for a
    single-string frame, and trims the trailing white space; when the
    last line does not end in white space, that is the lines joined by
    single spaces with no trailing space, and a single such line
    formats to exactly that line. *)
Theorem format_frame_wire :
  (∀ frame_lines : list pystr,
     Forall (fun line => length line = 26%nat) frame_lines →
     format_frame_for_valorant frame_lines
     = rstrip (space_every_26 0 (concat frame_lines))
     ∧ ∀ final c,
         last frame_lines = Some final →
         last final = Some c →
         py_isspace c = false →
         format_frame_for_valorant frame_lines = joined frame_lines
         ∧ last (format_frame_for_valorant frame_lines) = Some c)
  ∧ (∀ (line : pystr) c,
       length line = 26%nat →
       last line = Some c →
       py_isspace c = false →
       format_frame_for_valorant [line] = line).
Proof.
  split.
  - intros frame_lines Hw. split.
    + by rewrite format_frame_concat, space_every_26_lines.
    + intros final c Hfinal Hc Hsp.
      assert (frame_lines ≠ []) as Hne by (by intros ->).
      assert (final ≠ []) as Hfne by (by intros ->).
      assert (format_frame_for_valorant frame_lines = joined frame_lines) as ->.
      { rewrite format_frame_concat, concat_spaced_joined by done.
        rewrite rstrip_snoc_space by done.
        apply (rstrip_keep _ c); [|done].
        by rewrite (last_joined _ final). }
      split; [done|]. by rewrite (last_joined _ final).
  - intros line c Hlen Hc Hsp.
    rewrite format_frame_concat. cbn. rewrite app_nil_r.
    rewrite rstrip_snoc_space by done. by apply (rstrip_keep _ c).
Qed.

(** The first line of the sprite, on its own. *)
Lemma format_frame_wire_sprite_line :
  format_frame_for_valorant [text "▛▀▀▀▀▀▀▀▀▀▀▀▀▀▀▀▀▀▀▀█▒▒▒▒▒"]
  = text "▛▀▀▀▀▀▀▀▀▀▀▀▀▀▀▀▀▀▀▀█▒▒▒▒▒".
Proof.
  apply (proj2 format_frame_wire (text "▛▀▀▀▀▀▀▀▀▀▀▀▀▀▀▀▀▀▀▀█▒▒▒▒▒") BG_CHAR);
    vm_compute; reflexivity.
Defined.

(** * Further properties *)

(** ** The frame generator scrolls by one column *)

(** X1: from one generated frame to the next every line moves one
    column to the right: column x + 1 of the next frame holds what
    column x of the frame holds. *)
Theorem generate_frames_scroll
    (sprite : list pystr) (sprite_w screen_w : nat) (bg : pychar) :
  Forall (fun line => length line = sprite_w) sprite →
  ∃ frames,
    generate_frames sprite (Z.of_nat sprite_w) (Z.of_nat screen_w) bg = Ok frames
    ∧ ∀ (i r x : nat) fr fr' line line',
        frames !! i = Some fr →
        frames !! S i = Some fr' →
        fr !! r = Some line →
        fr' !! r = Some line' →
        (S x < screen_w)%nat →
        line' !! S x = line !! x.
Proof.
  intros Hsprite. eexists. split; [by apply generate_frames_ok|].
  intros i r x fr fr' line line' Hfr Hfr' Hline Hline' Hx.
  rewrite list_lookup_fmap in Hfr, Hfr'. unfold range in *.
  destruct (seqZ _ _ !! i) as [p|] eqn:Hp; [|done].
  destruct (seqZ _ _ !! S i) as [p'|] eqn:Hp'; [|done].
  apply lookup_seqZ in Hp as [-> _]. apply lookup_seqZ in Hp' as [-> _].
  cbn in Hfr, Hfr'. simplify_eq.
  rewrite list_lookup_fmap in Hline, Hline'.
  destruct (sprite !! r) as [sl|]; [|done]. cbn in Hline, Hline'. simplify_eq.
  rewrite !list_lookup_fmap, !lookup_seqZ_lt by lia. cbn. f_equal.
  unfold pixel. cbv zeta.
  replace (0 + Z.of_nat (S x) - (- Z.of_nat sprite_w + Z.of_nat (S i)))
    with (0 + Z.of_nat x - (- Z.of_nat sprite_w + Z.of_nat i)) by lia.
  done.
Qed.

Lemma generate_frames_scroll_truck :
  ∃ frames,
    generate_truck_frames = Ok frames
    ∧ ∀ (i r x : nat) fr fr' line line',
        frames !! i = Some fr →
        frames !! S i = Some fr' →
        fr !! r = Some line →
        fr' !! r = Some line' →
        (S x < 26)%nat →
        line' !! S x = line !! x.
Proof.
  apply (generate_frames_scroll TRUCK_SPRITE 26 26 BG_CHAR).
  refine (bool_decide_unpack _ _). vm_compute. exact I.
Defined.

(** ** The playback subsequence by index *)

Lemma stride_from_lookup {A} (k skip i : nat) (l : list A) :
  (1 ≤ k)%nat → stride_from k skip l !! i = l !! (skip + i * k)%nat.
Proof.
  intros Hk. revert skip i. induction l as [|x l IH]; intros skip i; [done|].
  cbn [stride_from]. destruct skip as [|skip].
  - destruct i as [|i]; [done|]. cbn [lookup list_lookup]. rewrite IH.
    replace (0 + S i * k)%nat with (S (pred k + i * k)) by lia. done.
  - rewrite IH. done.
Qed.

(** X2: for a stride k >= 1 the frames played are the frames at
    indices 0, k, 2k, ... in this order, followed by at most one more
    frame, the last one of the sequence. *)
Theorem frames_to_play_by_index {A} (frames to_play : list (obj A)) (k : Z) :
  1 ≤ k →
  frames_to_play frames (VInt k) = Ok to_play →
  ∃ sampled,
    (∀ i : nat, sampled !! i = frames !! (i * Z.to_nat k)%nat)
    ∧ (to_play = sampled
       ∨ ∃ final, last frames = Some final ∧ to_play = sampled ++ [final]).
Proof.
  intros Hk Hplay. exists (stride_from (Z.to_nat k) 0 frames). split.
  - intros i. rewrite stride_from_lookup by lia. done.
  - unfold frames_to_play in Hplay. cbn in Hplay. unfold py_slice_step in Hplay.
    rewrite decide_False, decide_True in Hplay by lia. cbn in Hplay.
    destruct (last frames) as [final|]; [|left; by simplify_eq].
    destruct (py_index _ (-1)) as [tail|]; [|done]. cbn in Hplay.
    destruct (py_is tail final); simplify_eq; [by left|right; eauto].
Qed.

(** Four frames, stride 2: frames 0 and 2, then the last frame. *)
Lemma frames_to_play_by_index_pairs :
  let frames := alloc_list 0 [text "a"; text "b"; text "c"; text "d"] in
  let to_play := [Obj 0%nat (text "a"); Obj 2%nat (text "c"); Obj 3%nat (text "d")] in
  ∃ sampled,
    (∀ i : nat, sampled !! i = frames !! (i * Z.to_nat 2)%nat)
    ∧ (to_play = sampled
       ∨ ∃ final, last frames = Some final ∧ to_play = sampled ++ [final]).
Proof.
  apply (frames_to_play_by_index
           (alloc_list 0 [text "a"; text "b"; text "c"; text "d"])
           [Obj 0%nat (text "a"); Obj 2%nat (text "c"); Obj 3%nat (text "d")] 2);
    [lia | reflexivity].
Defined.

(** ** The playback thread of the player: signals *)

Lemma proc_bind_fst {A B} (m : proc A) (k : A → proc B) :
  (m ≫= k).1 = m.1 ++ match m.2 with Ok a => (k a).1 | Raise _ => [] end.
Proof.
  destruct m as [t [a|e]]; cbn; [|by rewrite app_nil_r]. by destruct (k a).
Qed.

Lemma py_sleep_cases (v : pyval) :
  (∃ q, py_sleep v = emit [Sleep q]) ∨ (∃ e, py_sleep v = lift (Raise e)).
Proof.
  destruct v as [|b|z|q|neg| |s|l|d]; cbn; eauto.
  - destruct (timeout_of _); cbn; [destruct (decide _)|]; eauto.
  - destruct (timeout_of _); cbn; [destruct (decide _)|]; eauto.
Qed.

(** What holds of the pieces of the player's loop holds of its trace. *)
Lemma play_loop_trace_ind (P : list event → Prop) :
  P [] →
  (∀ a b, P a → P b → P (a ++ b)) →
  (∀ f, P (send_frame f)) →
  (∀ n, P [FramePlayed n]) →
  (∀ q, P [Sleep q]) →
  ∀ is_playing delay len i rest, P (play_loop is_playing delay len i rest).1.
Proof.
  intros Hnil Happ Hsend Hplayed Hsleep is_playing delay len i rest.
  revert i. induction rest as [|f rest IH]; intros i; [done|].
  cbn [play_loop]. destruct (at_top is_playing i); [|done]. cbn [negb].
  rewrite !proc_bind_emit. cbn [fst]. apply Happ; [done|]. apply Happ; [done|].
  rewrite proc_bind_fst.
  destruct (bool_decide _ && at_foot is_playing i); [|cbn; apply IH].
  destruct (py_sleep_cases delay) as [[q ->]|[e ->]];
    unfold emit, lift; cbn [fst snd]; [|by apply Happ].
  apply Happ; [done|]. apply IH.
Qed.











Ltac not_among :=
  rewrite ?not_elem_of_cons; repeat split; (discriminate || apply not_elem_of_nil).

Lemma send_frame_no_completion (f : frame) : AnimationComplete ∉ send_frame f.
Proof.
  destruct f; cbn; destruct (truthy _); try apply not_elem_of_nil;
    unfold type_line_in_chat; not_among.
Qed.

(** X4: the completion signal is the last event of a thread that ends
    normally, stopped or not, and occurs nowhere else; a thread that
    ends with an exception has not signalled completion. *)
Theorem completion_signalled_once (self : player) (is_playing : flag_reads) :
  match (play_thread self is_playing).2 with
  | Ok _ =>
    ∃ t, (play_thread self is_playing).1 = t ++ [AnimationComplete]
         ∧ AnimationComplete ∉ t
  | Raise _ => AnimationComplete ∉ (play_thread self is_playing).1
  end.
Proof.
  unfold play_thread.
  destruct (frames_to_play (frames self) (skip_frames self)) as [to_play|e];
    [|cbn; apply not_elem_of_nil].
  cbn.
  pose proof (play_loop_trace_ind (fun t => AnimationComplete ∉ t)) as Hno.
  specialize (Hno (not_elem_of_nil _)).
  assert (AnimationComplete
            ∉ (play_loop is_playing (frame_delay self) (length to_play) 0 to_play).1)
    as Hloop.
  { apply Hno.
    - intros a b Ha Hb. by apply not_elem_of_app.
    - apply send_frame_no_completion.
    - intros n. not_among.
    - intros q. not_among. }
  destruct (play_loop _ _ _ _ _) as [t [[]|e]]; cbn in *; [|done].
  by exists t.
Qed.

(** ** The playback thread of the player: strides that are no stride *)

(** X5: a stride of 0 makes the slice raise [ValueError] and a stride
    that is no integer [TypeError], before any frame is submitted: the
    player's thread and the overlay's thread end at once, without a
    single event. *)
Theorem invalid_stride_stops_playback :
  (∀ frames delay is_playing,
     play_thread (Player frames (VInt 0) delay) is_playing = ([], Raise ValueError))
  ∧ (∀ frames skip delay is_playing,
       slice_step_of skip = Raise TypeError →
       play_thread (Player frames skip delay) is_playing = ([], Raise TypeError))
  ∧ (∀ f config delay,
       load_animation_config f = Ok config →
       anim_settings config "Truck" = Ok (VInt 0, delay) →
       play_animation "Truck" f = ([], Raise ValueError)).
Proof.
  repeat split.
  - intros frames skip delay is_playing Hskip.
    unfold play_thread, frames_to_play. cbn. by rewrite Hskip.
  - intros f config delay Hload Hset.
    unfold play_animation. cbn. rewrite Hload. cbn. by rewrite Hset.
Qed.

(** A config file that sets the stride of "Truck" to 0. *)
Lemma invalid_stride_stops_playback_file :
  play_animation "Truck"
    (FileHolds (Document (VDict {[ "animations" := VDict {[ "Truck" :=
       VDict {[ "skip_frames" := VInt 0 ]} ]} ]})))
  = ([], Raise ValueError).
Proof.
  apply (proj2 (proj2 invalid_stride_stops_playback) _
           (VDict {[ "animations" := VDict {[ "Truck" :=
              VDict {[ "skip_frames" := VInt 0 ]} ]} ]}) (VFloat 0.5));
    vm_compute; reflexivity.
Defined.

(** ** The playback thread of the player: stopping *)



(** A delay beyond the range of a timeout ends the thread at its
    first sleep: one frame is signalled, and no completion. *)
Remark play_thread_delay_out_of_range :
  let self := Player TRUCK_ANIMATION (VInt 5) (VFloat (inject_Z (10 ^ 30))) in
  progress (play_thread self never_stopped).1 = [1]
  ∧ (play_thread self never_stopped).2 = Raise OverflowError.
Proof. cbv zeta. split; vm_compute; reflexivity. Qed.


(** ** No key is left pressed *)



Lemma type_line_in_chat_released (line : pystr) :
  held_after (type_line_in_chat line) [] = [].
Proof. reflexivity. Qed.






(** ** Blank frames and the shape of the payload *)

Lemma rstrip_nil (s : pystr) :
  rstrip s = [] ↔ Forall (fun c => py_isspace c = true) s.
Proof.
  induction s as [|c s IH]; [done|]. cbn. rewrite Forall_cons.
  destruct (rstrip s) as [|x t].
  - destruct (py_isspace c); split; try done; [by intros _; split; [|apply IH]|].
    by intros [? _].
  - split; [done|]. intros [_ Hs]. by apply IH in Hs.
Qed.

Lemma lstrip_blank (s : pystr) :
  Forall (fun c => py_isspace c = true) (lstrip s)
  ↔ Forall (fun c => py_isspace c = true) s.
Proof.
  induction s as [|c s IH]; [done|]. cbn.
  destruct (py_isspace c) eqn:Hc; [|done].
  rewrite IH, Forall_cons. tauto.
Qed.

Lemma concat_spaced_blank (frame_lines : list pystr) :
  Forall (fun c => py_isspace c = true)
    (concat ((fun line => line ++ [SPACE]) <$> frame_lines))
  ↔ Forall (fun c => py_isspace c = true) (concat frame_lines).
Proof.
  induction frame_lines as [|line rest IH]; [done|].
  rewrite fmap_cons, !concat_cons, !Forall_app, IH, Forall_singleton.
  assert (py_isspace SPACE = true) by done. tauto.
Qed.

Lemma concat_singletons (s : pystr) : concat ((fun c => [c]) <$> s) = s.
Proof. induction s as [|c s IH]; [done|]. cbn. by rewrite IH. Qed.

Lemma truthy_false (s : pystr) : truthy s = false ↔ s = [].
Proof.
  unfold truthy. rewrite bool_decide_eq_false.
  destruct s; split; try done.
  - intros _ H. by apply H.
  - intros H. by destruct H.
Qed.

(** X8: a frame is submitted if and only if it holds a character that
    is not white space: for a frame of white space only (or without any
    line) the player sends nothing, and the overlay sends nothing and
    does not sleep; every other frame is one submission. *)
Theorem blank_frames_are_skipped (f : frame) :
  let blank := Forall (fun c => py_isspace c = true) (concat (frame_lines_of f)) in
  (blank → send_frame f = []
           ∧ ∀ id delay, overlay_loop delay [Obj id f] = ([], Ok ()))
  ∧ (¬ blank → ∃ payload, payload ≠ []
                 ∧ dispatched (send_frame f) = [payload]
                 ∧ ∀ id delay,
                     dispatched (overlay_loop delay [Obj id f]).1
                     = [payload_of (Obj id f)]).
Proof.
  cbv zeta.
  assert (format_frame_for_valorant (frame_lines_of f) = []
          ↔ Forall (fun c => py_isspace c = true) (concat (frame_lines_of f)))
    as Hfmt.
  { by rewrite format_frame_concat, rstrip_nil, concat_spaced_blank. }
  assert (truthy (format_frame_for_valorant (frame_lines_of f)) = false
          ↔ Forall (fun c => py_isspace c = true) (concat (frame_lines_of f)))
    as Htruthy by (by rewrite truthy_false).
  assert (∀ s : pystr, truthy (strip s) = false
                       ↔ Forall (fun c => py_isspace c = true) s) as Hstrip.
  { intros s. unfold strip. by rewrite truthy_false, rstrip_nil, lstrip_blank. }
  assert (∀ id delay,
            truthy (format_frame_for_valorant (frame_lines_of f)) = true →
            dispatched (overlay_loop delay [Obj id f]).1 = [payload_of (Obj id f)])
    as Hoverlay.
  { intros id delay Ht. unfold payload_of. cbn [overlay_loop oval]. rewrite Ht.
    rewrite proc_bind_fst, proc_bind_emit. cbn [fst snd].
    destruct (py_sleep_cases delay) as [[q ->]|[e ->]]; unfold emit, lift;
      cbn [fst snd]; unfold dispatched; rewrite !omap_app; by cbn. }
  split.
  - intros Hblank. split.
    + destruct f as [ls|s]; cbn [send_frame frame_lines_of] in *.
      * by rewrite (proj2 Htruthy Hblank).
      * rewrite concat_singletons in Hblank. by rewrite (proj2 (Hstrip s) Hblank).
    + intros id delay. cbn [overlay_loop oval]. by rewrite (proj2 Htruthy Hblank).
  - intros Hblank.
    assert (truthy (format_frame_for_valorant (frame_lines_of f)) = true) as Ht.
    { apply not_false_iff_true. intros E. by apply Hblank, Htruthy. }
    destruct f as [ls|s]; cbn [send_frame frame_lines_of] in *.
    + exists (format_frame_for_valorant ls). rewrite Ht.
      split; [by intros E; apply Hblank, Hfmt|]. split; [done|]. by auto.
    + rewrite concat_singletons in Hblank.
      assert (truthy (strip s) = true) as Hs.
      { apply not_false_iff_true. intros E. by apply Hblank, Hstrip. }
      rewrite Hs. exists (rstrip (space_every_26 0 s)).
      split; [|split; [done|by auto]].
      intros E. apply Hblank. apply rstrip_nil in E.
      clear -E. revert E. generalize 0%nat.
      induction s as [|c s IH]; intros j E; [done|].
      cbn [space_every_26] in E. apply Forall_cons in E as [Hc E].
      constructor; [done|].
      apply Forall_app in E as [_ E]. by apply (IH (S j)).
Qed.

(** Two lines of spaces are not sent. *)
Lemma blank_frames_are_skipped_spaces :
  send_frame (FLines [text "  "; text " "]) = []
  ∧ ∀ id delay,
      overlay_loop delay [Obj id (FLines [text "  "; text " "])] = ([], Ok ()).
Proof.
  apply (proj1 (blank_frames_are_skipped (FLines [text "  "; text " "]))).
  refine (bool_decide_unpack _ _). vm_compute. exact I.
Defined.

Lemma rstrip_spec (s : pystr) :
  ∃ ws, s = rstrip s ++ ws
        ∧ Forall (fun c => py_isspace c = true) ws
        ∧ ∀ c, last (rstrip s) = Some c → py_isspace c = false.
Proof.
  induction s as [|c s (ws & Hs & Hws & Hlast)].
  { exists []. by repeat split. }
  cbn [rstrip]. destruct (rstrip s) as [|x t] eqn:Hr.
  - destruct (py_isspace c) eqn:Hc.
    + exists (c :: ws). cbn in *. subst. repeat split; [by constructor|done].
    + exists ws. cbn in *. subst. repeat split; [done|].
      intros c' [= <-]. done.
  - exists ws. rewrite Hs at 1. repeat split; [done|].
    intros c'. rewrite last_cons_cons. apply Hlast.
Qed.

(** X9: the payload of a frame is its lines, each followed by one
    space, with the trailing white space cut off and nothing else
    changed: what is cut is white space only, it includes the last
    delimiter, and the payload does not end in white space. *)
Theorem payload_is_trimmed (frame_lines : list pystr) :
  ∃ ws,
    concat ((fun line => line ++ [SPACE]) <$> frame_lines)
    = format_frame_for_valorant frame_lines ++ ws
    ∧ Forall (fun c => py_isspace c = true) ws
    ∧ (∀ c, last (format_frame_for_valorant frame_lines) = Some c →
            py_isspace c = false)
    ∧ (frame_lines ≠ [] → ws ≠ []).
Proof.
  rewrite format_frame_concat.
  destruct (rstrip_spec (concat ((fun line => line ++ [SPACE]) <$> frame_lines)))
    as (ws & Hs & Hws & Hlast).
  exists ws. repeat split; [done..|].
  intros Hne ->. rewrite app_nil_r in Hs. rewrite <- Hs in Hlast.
  rewrite concat_spaced_joined in Hlast by done.
  by specialize (Hlast SPACE (last_snoc _ _)).
Qed.

(** The sprite's lines: the cut is not empty. *)
Lemma payload_is_trimmed_sprite :
  ∃ ws,
    concat ((fun line => line ++ [SPACE]) <$> TRUCK_SPRITE)
    = format_frame_for_valorant TRUCK_SPRITE ++ ws
    ∧ ws ≠ [].
Proof.
  destruct (payload_is_trimmed TRUCK_SPRITE) as (ws & Heq & _ & _ & Hne).
  exists ws. split; [exact Heq|]. apply Hne. discriminate.
Defined.

(** ** Saving and loading the settings *)

(** X10: saving the settings of an animation and loading the file
    again gives these settings back, and leaves the settings of every
    other animation as they were. The config is the object the player
    has loaded: its "animations" entry is absent or an object. *)
Theorem save_config_round_trip (m : gmap string pyval) (name : string)
    (skip delay : pyval) (f : file_state) :
  (m !! "animations" = None ∨ ∃ a, m !! "animations" = Some (VDict a)) →
  f ≠ FileUnreadable →
  ∃ config' f',
    save_config (VDict m) name skip delay = Ok config'
    ∧ save_animation_config config' f = Ok f'
    ∧ load_animation_config f' = Ok config'
    ∧ anim_settings config' name = Ok (skip, delay)
    ∧ ∀ name', name' ≠ name →
        anim_settings config' name' = anim_settings (VDict m) name'.
Proof.
  intros Hshape Hf.
  assert (∀ (a : gmap string pyval) (m1 : gmap string pyval),
            let config' :=
              VDict (<["animations" :=
                        VDict (<[name := VDict {[ "skip_frames" := skip;
                                                  "frame_delay" := delay ]}]> a)]> m1) in
            anim_settings config' name = Ok (skip, delay)
            ∧ ∀ name', name' ≠ name →
                anim_settings config' name'
                = anim_settings (VDict (<["animations" := VDict a]> m1)) name')
    as Hset.
  { intros a m1. cbv zeta. unfold anim_settings. cbn.
    rewrite !lookup_insert_eq. cbn. split.
    - rewrite lookup_insert_eq. cbn. rewrite lookup_insert_eq. cbn.
      rewrite lookup_insert_ne by done. by rewrite lookup_singleton_eq.
    - intros name' Hne. by rewrite lookup_insert_ne. }
  assert (∀ config', ∃ f', save_animation_config config' f = Ok f'
                           ∧ load_animation_config f' = Ok config') as Hfile.
  { intros config'. exists (FileHolds (Document config')). by destruct f. }
  unfold save_config. destruct Hshape as [Hnone|[a Ha]].
  - rewrite Hnone, lookup_insert_eq.
    destruct (Hset ∅ (<["animations" := VDict ∅]> m)) as [Hown Hother].
    destruct (Hfile (VDict (<["animations" :=
                VDict (<[name := VDict {[ "skip_frames" := skip;
                                          "frame_delay" := delay ]}]> ∅)]>
                (<["animations" := VDict ∅]> m)))) as (f' & Hsave & Hload).
    eexists _, f'. repeat split; [done..|].
    intros name' Hne. rewrite Hother by done.
    unfold anim_settings. cbn. rewrite insert_insert_eq, lookup_insert_eq, Hnone. done.
  - rewrite Ha, Ha.
    destruct (Hset a m) as [Hown Hother].
    destruct (Hfile (VDict (<["animations" :=
                VDict (<[name := VDict {[ "skip_frames" := skip;
                                          "frame_delay" := delay ]}]> a)]> m)))
      as (f' & Hsave & Hload).
    eexists _, f'. repeat split; [done..|].
    intros name' Hne. rewrite Hother by done. by rewrite insert_id.
Qed.

(** Saving stride 3 and delay 1 for "Truck" over the built-in defaults. *)
Lemma save_config_round_trip_truck :
  ∃ config' f',
    save_config default_config "Truck" (VInt 3) (VInt 1) = Ok config'
    ∧ save_animation_config config' FileMissing = Ok f'
    ∧ load_animation_config f' = Ok config'
    ∧ anim_settings config' "Truck" = Ok (VInt 3, VInt 1)
    ∧ ∀ name', name' ≠ "Truck" →
        anim_settings config' name' = anim_settings default_config name'.
Proof.
  apply (save_config_round_trip
           {[ "animations" := VDict {[ "Truck" := truck_defaults ]} ]}
           "Truck" (VInt 3) (VInt 1) FileMissing);
    [right; eexists; reflexivity | discriminate].
Defined.

(** ** Moving a frame in the editor *)

Lemma py_setitem_ok {A} (l : list A) (i : nat) (x : A) :
  (i < length l)%nat → py_setitem l (Z.of_nat i) x = Ok (<[i := x]> l).
Proof.
  intros Hi. unfold py_setitem. cbv zeta.
  destruct (decide (Z.of_nat i < 0)) as [?|_]; [lia|].
  destruct (decide (0 ≤ Z.of_nat i < Z.of_nat (length l))) as [_|?]; [|lia].
  by rewrite Nat2Z.id.
Qed.

Lemma py_index_nat {A} (l : list A) (i : nat) (x : A) :
  l !! i = Some x → py_index l (Z.of_nat i) = Ok x.
Proof. intros Hx. apply py_index_ok; [lia|]. by rewrite Nat2Z.id. Qed.

(** Swapping two neighbours, in either order of the two indices. *)
Lemma py_swap_neighbours {A} (t d : list A) (a b : A) :
  py_swap (t ++ a :: b :: d) (Z.of_nat (S (length t))) (Z.of_nat (length t))
  = Ok (t ++ b :: a :: d)
  ∧ py_swap (t ++ a :: b :: d) (Z.of_nat (length t)) (Z.of_nat (S (length t)))
    = Ok (t ++ b :: a :: d).
Proof.
  assert ((t ++ a :: b :: d) !! length t = Some a) as Ha
    by apply list_lookup_middle, eq_refl.
  assert ((t ++ a :: b :: d) !! S (length t) = Some b) as Hb.
  { rewrite lookup_app_r by lia. by replace (S (length t) - length t)%nat with 1%nat by lia. }
  unfold py_swap.
  rewrite (py_index_nat _ _ _ Ha), (py_index_nat _ _ _ Hb). cbn.
  rewrite !py_setitem_ok by (rewrite ?length_insert, length_app; cbn; lia). cbn.
  rewrite !py_setitem_ok by (rewrite ?length_insert, length_app; cbn; lia).
  split; f_equal.
  - rewrite (insert_app_r_alt t _ (S (length t))) by lia.
    replace (S (length t) - length t)%nat with 1%nat by lia. cbn.
    rewrite (insert_app_r_alt t _ (length t)) by lia.
    by rewrite Nat.sub_diag.
  - rewrite (insert_app_r_alt t _ (length t)) by lia.
    rewrite Nat.sub_diag. cbn.
    rewrite (insert_app_r_alt t _ (S (length t))) by lia.
    by replace (S (length t) - length t)%nat with 1%nat by lia.
Qed.

(** X11: moving the frame of a row that has a row above it swaps it
    with that neighbour and selects the row above: the frames stay the
    same frames in all other places, and moving the selected frame
    down again restores the list and the selection. *)
Theorem move_frame_up_then_down {A} (frames : list A) (row : Z) :
  0 < row < Z.of_nat (length frames) →
  ∃ frames',
    move_frame_up frames row = Ok (frames', row - 1)
    ∧ frames' ≡ₚ frames
    ∧ frames' !! Z.to_nat (row - 1) = frames !! Z.to_nat row
    ∧ frames' !! Z.to_nat row = frames !! Z.to_nat (row - 1)
    ∧ (∀ i : nat, Z.of_nat i ≠ row → Z.of_nat i ≠ row - 1 →
                  frames' !! i = frames !! i)
    ∧ move_frame_down frames' (row - 1) = Ok (frames, row).
Proof.
  intros Hrow.
  assert (∃ i : nat, row = Z.of_nat (S i)) as [i ->]
    by (exists (Z.to_nat (row - 1)); lia).
  replace (Z.of_nat (S i) - 1) with (Z.of_nat i) by lia.
  rewrite !Nat2Z.id.
  destruct (lookup_lt_is_Some_2 frames i) as [a Ha]; [lia|].
  destruct (lookup_lt_is_Some_2 frames (S i)) as [b Hb]; [lia|].
  assert (frames = take i frames ++ a :: b :: drop (S (S i)) frames) as Hsplit.
  { rewrite <- (drop_S _ _ _ Hb). by rewrite take_drop_middle. }
  assert (length (take i frames) = i) as Hlen by (rewrite length_take; lia).
  revert Hsplit Hlen.
  generalize (take i frames) (drop (S (S i)) frames). intros t d -> <-.
  destruct (py_swap_neighbours t d a b) as [Hup _].
  destruct (py_swap_neighbours t d b a) as [_ Hdown].
  exists (t ++ b :: a :: d). repeat split.
  - unfold move_frame_up. rewrite decide_True by lia.
    replace (Z.of_nat (S (length t)) - 1) with (Z.of_nat (length t)) by lia.
    by rewrite Hup.
  - apply Permutation_app_head, perm_swap.
  - rewrite Hb. by apply list_lookup_middle.
  - rewrite Ha. rewrite lookup_app_r by lia.
    by replace (S (length t) - length t)%nat with 1%nat by lia.
  - intros j Hj Hj1.
    destruct (decide (j < length t)%nat).
    + by rewrite !lookup_app_l by lia.
    + rewrite !lookup_app_r by lia.
      destruct (j - length t)%nat as [|[|rest]] eqn:E; [lia|lia|done].
  - unfold move_frame_down. rewrite decide_True by (rewrite length_app; cbn; lia).
    replace (Z.of_nat (length t) + 1) with (Z.of_nat (S (length t))) by lia.
    by rewrite Hdown.
Qed.

(** Three frames, the last one moved up. *)
Lemma move_frame_up_then_down_last :
  ∃ frames',
    move_frame_up [text "a"; text "b"; text "c"] 2 = Ok (frames', 2 - 1)
    ∧ frames' ≡ₚ [text "a"; text "b"; text "c"]
    ∧ frames' !! Z.to_nat (2 - 1) = [text "a"; text "b"; text "c"] !! Z.to_nat 2
    ∧ frames' !! Z.to_nat 2 = [text "a"; text "b"; text "c"] !! Z.to_nat (2 - 1)
    ∧ (∀ i : nat, Z.of_nat i ≠ 2 → Z.of_nat i ≠ 2 - 1 →
                  frames' !! i = [text "a"; text "b"; text "c"] !! i)
    ∧ move_frame_down frames' (2 - 1) = Ok ([text "a"; text "b"; text "c"], 2).
Proof.
  apply (move_frame_up_then_down [text "a"; text "b"; text "c"] 2). cbn. lia.
Defined.

(** ** More of the menu *)

Module MenuMore.
Import Menu Workers MenuFacts.

(** X12: a Select with a number from 1 on never raises. The lower
    bound is not checked: in a visible menu with the lock free, a
    number n <= 0 above minus the option count selects, as Python
    indexes from the end, option n + count, and a number at or below
    minus the count raises [IndexError] and changes nothing. *)
Theorem select_option_bounds (s : menu) (n : Z) :
  (1 ≤ n → (select_option n s).2 = Ok ())
  ∧ (visible s = true → selection_pending s = false →
     - Z.of_nat (length (options s)) < n ≤ 0 →
     ∃ selected,
       options s !! Z.to_nat (n - 1 + Z.of_nat (length (options s))) = Some selected
       ∧ stdout (select_option n s).1 = stdout s ++ ["Selected: " +:+ selected])
  ∧ (visible s = true → selection_pending s = false →
     n ≤ - Z.of_nat (length (options s)) →
     select_option n s = (s, Raise IndexError)).
Proof.
  split; [|split].
  - intros Hn. unfold select_option. destruct (visible s); [|done]. cbn.
    destruct (selection_pending s); [done|].
    case_decide as Hlen; [done|].
    destruct (lookup_lt_is_Some_2 (options s) (Z.to_nat (n - 1))) as [sel Hsel];
      [lia|].
    rewrite (py_index_ok _ _ sel) by (done || lia).
    cbn. case_decide; [by destruct (submenus !! sel)|].
    repeat case_decide; try done.
    by destruct (builtin_menus_have_keys (current_menu s)) as [k ->].
  - intros Hv Hp Hn. fields s. unfold select_option. cbn.
    rewrite decide_False by lia. unfold py_index. cbv zeta.
    destruct (decide (n - 1 < 0)) as [_|?]; [|lia].
    destruct (decide (0 ≤ n - 1 + Z.of_nat (length opts) < Z.of_nat (length opts)))
      as [_|?]; [|lia].
    destruct (lookup_lt_is_Some_2 opts (Z.to_nat (n - 1 + Z.of_nat (length opts))))
      as [sel Hsel]; [lia|].
    rewrite Hsel. exists sel. split; [done|]. cbn.
    destruct (decide (cur = "main")).
    + by destruct (submenus !! sel).
    + destruct (decide (cur ∈ builtin_menus));
        [destruct (valorant_menu_keys !! cur)
        |destruct (decide (cur ∈ animation_menus))]; done.
  - intros Hv Hp Hn. fields s. unfold select_option. cbn.
    rewrite decide_False by lia. unfold py_index. cbv zeta.
    destruct (decide (n - 1 < 0)) as [_|?]; [|lia].
    by destruct (decide (0 ≤ n - 1 + Z.of_nat (length opts) < Z.of_nat (length opts)))
      as [?|_]; [lia|].
Qed.

(** Select(0) in "Strategy" prints its last option. *)
Lemma select_option_bounds_zero :
  let s := run init [Toggle; Select 6] in
  ∃ selected,
    options s !! Z.to_nat (0 - 1 + Z.of_nat (length (options s))) = Some selected
    ∧ stdout (select_option 0 s).1 = stdout s ++ ["Selected: " +:+ selected].
Proof.
  apply (proj1 (proj2 (select_option_bounds (run init [Toggle; Select 6]) 0)));
    [reflexivity | reflexivity | vm_compute; split; [reflexivity | discriminate]].
Defined.

Lemma submenus_keys (name : string) (sub : list string) :
  submenus !! name = Some sub →
  (name = "Combat" ∧ sub = ["Need Support"; "Caution here!"; "Need Healing!";
                            "On My Way"; "Ultimate Status"])
  ∨ (name = "Tactics" ∧ sub = ["I'll Take Point"; "Let's rush them!"; "Be Quiet";
                               "Fall Back!"; "Play For Picks"])
  ∨ (name = "Social" ∧ sub = ["Thanks"; "Commend"; "Yes"; "No"; "Sorry"; "Hello"])
  ∨ (name = "Strategy" ∧ sub = ["Going A"; "Going B"; "Going C"; "Going Mid"])
  ∨ (name = "Rocket League" ∧ sub = ["What a save!"; "Nice shot!"; "Thanks!";
                                     "Well played!"])
  ∨ (name = "Animations" ∧ sub = ["Truck"]).
Proof.
  unfold submenus. rewrite !lookup_insert_Some, lookup_singleton_Some.
  intros H. repeat (destruct H as [[<- <-]|[_ H]]; [tauto|]).
  destruct H as [<- <-]. tauto.
Qed.

(** X13: in every state the overlay can reach, the options shown are
    the options of the current menu: the main options at the root,
    and in a submenu the list the submenu table holds for it, which is
    one of the six the main menu names. *)
Theorem shown_options_match_menu (es : list input) :
  (current_menu (run init es) = "main"
   ∧ options (run init es) = main_options)
  ∨ (current_menu (run init es) ≠ "main"
     ∧ current_menu (run init es) ∈ main_options
     ∧ submenus !! current_menu (run init es) = Some (options (run init es))).
Proof.
  pose proof (run_consistent es init init_consistent) as Hcons.
  unfold consistent in Hcons. case_decide as Hcur; [by left|]. right.
  split; [done|]. split; [|done].
  apply submenus_keys in Hcons. unfold main_options.
  rewrite !elem_of_cons. tauto.
Qed.

Lemma valorant_keys_range (name : string) (k : Z) :
  valorant_menu_keys !! name = Some k → 1 ≤ k ≤ 4.
Proof.
  unfold valorant_menu_keys. rewrite !lookup_insert_Some, lookup_singleton_Some.
  intros H. repeat (destruct H as [[_ <-]|[_ H]]; [lia|]).
  destruct H as [_ <-]. lia.
Qed.

(** The navigation state and the workers started, as the events the
    hotkeys and the mouse deliver keep them. *)
Lemma step_deliverable (s : menu) (e : input) :
  deliverable e →
  consistent s →
  (current_menu s ≠ "main" →
   main_options !! Z.to_nat (main_menu_index s - 1) = Some (current_menu s)
   ∧ 1 ≤ main_menu_index s ≤ 6) →
  Forall shipped (started s) →
  (current_menu (step s e) ≠ "main" →
   main_options !! Z.to_nat (main_menu_index (step s e) - 1)
   = Some (current_menu (step s e))
   ∧ 1 ≤ main_menu_index (step s e) ≤ 6)
  ∧ Forall shipped (started (step s e)).
Proof.
  intros He Hcons Horigin Hshipped. destruct e as [|n| |i]; cbn in *.
  - unfold toggle_visibility. fields s. by destruct vis.
  - unfold select_option. fields s. destruct vis, pend; cbn; try done.
    case_decide as Hlen; [done|].
    destruct (lookup_lt_is_Some_2 opts (Z.to_nat (n - 1))) as [sel Hsel]; [lia|].
    rewrite (py_index_ok _ _ sel) by (done || lia). cbn.
    unfold consistent in Hcons. cbn in Hcons.
    destruct (decide (cur = "main")) as [->|Hcur].
    + subst opts. destruct (submenus !! sel) as [sub|]; cbn; [|done].
      split; [|done]. intros _. split; [done|lia].
    + assert (∀ a, shipped a →
                (cur ≠ "main" →
                 main_options !! Z.to_nat (idx - 1) = Some cur ∧ 1 ≤ idx ≤ 6)
                ∧ Forall shipped (acts ++ [a])) as Hadd.
      { intros a Ha. split; [done|]. apply Forall_app. split; [done|].
        by constructor. }
      apply submenus_keys in Hcons.
      destruct (decide (cur ∈ builtin_menus)) as [Hb|Hb].
      { destruct (builtin_menus_have_keys cur Hb) as [k Hk]. rewrite Hk. cbn.
        apply Hadd. cbn. split; [by apply valorant_keys_range in Hk|done]. }
      destruct (decide (cur ∈ animation_menus)) as [Ha|Ha]; cbn; apply Hadd; cbn.
      * apply list_elem_of_singleton in Ha as ->.
        destruct Hcons as [[? _]|[[? _]|[[? _]|[[? _]|[[? _]|[_ ->]]]]]]; try done.
        apply list_elem_of_lookup_2 in Hsel. by apply list_elem_of_singleton in Hsel.
      * destruct Hcons as [[-> _]|[[-> _]|[[-> _]|[[-> _]|[[_ ->]|[-> _]]]]]];
          try (exfalso; apply Hb; unfold builtin_menus; rewrite !elem_of_cons; tauto).
        { apply list_elem_of_lookup. eauto. }
        { exfalso. apply Ha. by apply list_elem_of_singleton. }
  - unfold handle_back, go_back. fields s. by repeat case_decide.
  - unfold timer_fires. fields s. by destruct (timers !! i).
Qed.

Lemma run_deliverable (es : list input) (s : menu) :
  Forall deliverable es →
  consistent s →
  (current_menu s ≠ "main" →
   main_options !! Z.to_nat (main_menu_index s - 1) = Some (current_menu s)
   ∧ 1 ≤ main_menu_index s ≤ 6) →
  Forall shipped (started s) →
  (current_menu (run s es) ≠ "main" →
   main_options !! Z.to_nat (main_menu_index (run s es) - 1)
   = Some (current_menu (run s es))
   ∧ 1 ≤ main_menu_index (run s es) ≤ 6)
  ∧ Forall shipped (started (run s es)).
Proof.
  intros Hes. revert s. induction Hes as [|e es He _ IH]; intros s Hc Ho Hs; [done|].
  destruct (step_deliverable s e He Hc Ho Hs) as [Ho' Hs'].
  apply (IH (step s e)); [by apply step_consistent|done..].
Qed.

(** X14: under the events the hotkeys and the mouse deliver, whenever
    the menu is in a submenu, [main_menu_index] is the number, from 1 to
    6, of the main option that names this submenu; for a built-in menu
    the key of the voice wheel is that number less 2. *)
Theorem origin_index_names_submenu (es : list input) :
  Forall deliverable es →
  current_menu (run init es) ≠ "main" →
  main_options !! Z.to_nat (main_menu_index (run init es) - 1)
  = Some (current_menu (run init es))
  ∧ 1 ≤ main_menu_index (run init es) ≤ 6
  ∧ ∀ key, valorant_menu_keys !! current_menu (run init es) = Some key →
           key = main_menu_index (run init es) - 2.
Proof.
  intros Hes Hcur.
  destruct (run_deliverable es init Hes init_consistent) as [Horigin _];
    [done|constructor|].
  destruct (Horigin Hcur) as [Hname Hidx]. split; [done|]. split; [done|].
  revert Hname. generalize (current_menu (run init es)).
  generalize dependent (main_menu_index (run init es)). intros idx _ Hidx name Hname key.
  assert (idx = 1 ∨ idx = 2 ∨ idx = 3 ∨ idx = 4 ∨ idx = 5 ∨ idx = 6)
    as [->|[->|[->|[->|[->| ->]]]]] by lia;
    vm_compute in Hname; injection Hname as <-; vm_compute; intros [=]; done.
Qed.

Lemma origin_index_names_submenu_combat :
  main_options !! Z.to_nat (main_menu_index (run init [Toggle; Select 3]) - 1)
  = Some (current_menu (run init [Toggle; Select 3]))
  ∧ 1 ≤ main_menu_index (run init [Toggle; Select 3]) ≤ 6
  ∧ ∀ key, valorant_menu_keys !! current_menu (run init [Toggle; Select 3]) = Some key →
           key = main_menu_index (run init [Toggle; Select 3]) - 2.
Proof.
  apply (origin_index_names_submenu [Toggle; Select 3]).
  - repeat constructor; cbn; lia.
  - vm_compute. discriminate.
Defined.

(** X15: under the events the hotkeys and the mouse deliver, every
    worker the menu starts is one of the shipped actions: a voice line
    with a menu key from 1 to 4 and an option number from 1 to 6, the
    animation "Truck", or one of the four Rocket League messages. *)
Theorem started_actions_are_shipped (es : list input) :
  Forall deliverable es → Forall shipped (started (run init es)).
Proof.
  intros Hes.
  by destruct (run_deliverable es init Hes init_consistent) as [_ Hshipped];
    [|constructor|].
Qed.

Lemma started_actions_are_shipped_session :
  Forall shipped (started (run init [Toggle; Select 1; Select 2; Toggle; Toggle;
                                     Select 2; Select 1])).
Proof.
  apply started_actions_are_shipped. repeat constructor; cbn; lia.
Defined.

Lemma do_voiceline_digits (main_num sub_num : Z) :
  1 ≤ main_num ≤ 4 → 1 ≤ sub_num ≤ 6 →
  (do_voiceline main_num sub_num).2 = Ok ()
  ∧ omap (fun e => match e with Press k => Some k | _ => None end)
      (do_voiceline main_num sub_num).1
    = [KChar "\"; KChar (pretty main_num); KChar (pretty sub_num)].
Proof.
  intros Hm Hk.
  assert (main_num = 1 ∨ main_num = 2 ∨ main_num = 3 ∨ main_num = 4)
    as [->|[->|[->| ->]]] by lia;
    assert (sub_num = 1 ∨ sub_num = 2 ∨ sub_num = 3 ∨ sub_num = 4
            ∨ sub_num = 5 ∨ sub_num = 6)
      as [->|[->|[->|[->|[->| ->]]]]] by lia;
    split; vm_compute; reflexivity.
Qed.

(** X16: every voice line the menu starts under these events runs to
    its end without an exception and presses exactly three keys: the
    backslash, the digit of the menu and the digit of the option. *)
Theorem started_voicelines_complete (es : list input) (main_num sub_num : Z) :
  Forall deliverable es →
  Voiceline main_num sub_num ∈ started (run init es) →
  (do_voiceline main_num sub_num).2 = Ok ()
  ∧ omap (fun e => match e with Press k => Some k | _ => None end)
      (do_voiceline main_num sub_num).1
    = [KChar "\"; KChar (pretty main_num); KChar (pretty sub_num)].
Proof.
  intros Hes Hin.
  destruct (run_deliverable es init Hes init_consistent) as [_ Hshipped];
    [done|constructor|].
  apply (proj1 (Forall_forall _ _) Hshipped) in Hin. destruct Hin as [Hm Hk].
  by apply do_voiceline_digits.
Qed.

Lemma started_voicelines_complete_combat :
  (do_voiceline 1 2).2 = Ok ()
  ∧ omap (fun e => match e with Press k => Some k | _ => None end)
      (do_voiceline 1 2).1
    = [KChar "\"; KChar (pretty 1); KChar (pretty 2)].
Proof.
  apply (started_voicelines_complete [Toggle; Select 3; Select 2] 1 2).
  - repeat constructor; cbn; lia.
  - vm_compute. left.
Defined.

(** *** The hide timers *)

Lemma step_arms_timer (s : menu) (e : input) :
  (∀ i, e ≠ TimerHide i) →
  (hide_timers (step s e) = hide_timers s ∧ started (step s e) = started s)
  ∨ ∃ a, hide_timers (step s e) = hide_timers s ++ [settle_delay a]
         ∧ started (step s e) = started s ++ [a].
Proof.
  intros He. destruct e as [|n| |i]; cbn.
  - left. unfold toggle_visibility. fields s. by destruct vis.
  - unfold select_option. fields s. destruct vis, pend; cbn; try by left.
    case_decide; [by left|].
    destruct (py_index opts (n - 1)) as [selected|]; [|by left]. cbn.
    destruct (decide (cur = "main")) as [->|Hcur].
    { left. by destruct (submenus !! selected). }
    destruct (decide (cur ∈ builtin_menus)) as [Hb|Hb].
    { destruct (builtin_menus_have_keys cur Hb) as [k ->]. right.
      by exists (Voiceline k n). }
    right. destruct (decide (cur ∈ animation_menus)).
    + by exists (Animation selected).
    + by exists (Chat selected).
  - left. unfold handle_back, go_back. fields s. by repeat case_decide.
  - by destruct (He i).
Qed.

(** X17: every worker the menu starts arms one hide timer, of 500 ms
    for a voice line and of 50 ms for an animation or a chat message,
    and nothing else arms one: the timers still running are, in order,
    among the delays of the workers started, and they are all of them
    as long as no timer has fired. *)
Theorem hide_timers_follow_workers (es : list input) :
  hide_timers (run init es) `sublist_of` (settle_delay <$> started (run init es))
  ∧ ((∀ i, TimerHide i ∉ es) →
     hide_timers (run init es) = settle_delay <$> started (run init es)).
Proof.
  assert (∀ s,
            hide_timers s `sublist_of` (settle_delay <$> started s) →
            hide_timers (run s es) `sublist_of` (settle_delay <$> started (run s es)))
    as Hsub.
  { induction es as [|e es IH]; intros s Hs; [done|].
    apply (IH (step s e)).
    assert ((∃ i, e = TimerHide i) ∨ ∀ i, e ≠ TimerHide i) as [[i ->]|Hno].
    { destruct e; try by right. left. by eexists. }
    - cbn. unfold timer_fires. destruct (hide_timers s !! i); [|done]. cbn.
      etrans; [apply sublist_delete|done].
    - destruct (step_arms_timer s e) as [[-> ->]|(a & -> & ->)]; [done..|].
      rewrite fmap_app. by apply sublist_app. }
  assert (∀ s,
            (∀ i, TimerHide i ∉ es) →
            hide_timers s = settle_delay <$> started s →
            hide_timers (run s es) = settle_delay <$> started (run s es))
    as Heq.
  { clear Hsub. induction es as [|e es IH]; intros s Hes Hs; [done|].
    apply (IH (step s e)).
    - intros i Hi. apply (Hes i). by right.
    - destruct (step_arms_timer s e) as [[-> ->]|(a & -> & ->)]; [|done|].
      + intros i ->. apply (Hes i). by left.
      + by rewrite fmap_app, Hs. }
  split; [by apply Hsub|]. intros Hes. by apply Heq.
Qed.

(** A voice line and nothing fired: one timer of 500 ms. *)
Lemma hide_timers_follow_workers_voiceline :
  hide_timers (run init [Toggle; Select 3; Select 1])
  = settle_delay <$> started (run init [Toggle; Select 3; Select 1]).
Proof.
  apply (proj2 (hide_timers_follow_workers [Toggle; Select 3; Select 1])).
  intros i Hi. repeat (apply elem_of_cons in Hi as [Hi|Hi]; [discriminate|]).
  by apply elem_of_nil in Hi.
Defined.

(** X18: no handler cancels a hide timer. Whatever events follow,
    short of the timer firing, the timers armed stay armed, so the
    timer of an earlier selection still hides the overlay when it
    fires, also when the overlay has been shown again in between. *)
Theorem hide_timers_are_never_cancelled (s : menu) (es : list input) (i : nat) :
  (∀ j, TimerHide j ∉ es) →
  (i < length (hide_timers s))%nat →
  hide_timers s `prefix_of` hide_timers (run s es)
  ∧ visible (timer_fires i (run s es)) = false
  ∧ nav_of (timer_fires i (run s es)) = Hidden.
Proof.
  intros Hes Hi.
  assert (hide_timers s `prefix_of` hide_timers (run s es)) as Hpre.
  { clear Hi. revert s. induction es as [|e es IH]; intros s; [done|].
    etrans; [|apply (IH (fun j Hj => Hes j (list_elem_of_further _ _ _ Hj)))].
    destruct (step_arms_timer s e) as [[-> _]|(a & -> & _)]; [|done|].
    - intros j ->. apply (Hes j). by left.
    - by apply prefix_app_r. }
  split; [done|].
  destruct Hpre as [k Hk].
  assert (is_Some (hide_timers (run s es) !! i)) as [ms Hms].
  { apply lookup_lt_is_Some. rewrite Hk, length_app. lia. }
  unfold nav_of, timer_fires. by rewrite Hms.
Qed.

(** The overlay is shown again before the timer of a voice line fires. *)
Lemma hide_timers_are_never_cancelled_reopened :
  let s := run init [Toggle; Select 3; Select 1] in
  hide_timers s `prefix_of` hide_timers (run s [Toggle; Toggle])
  ∧ visible (timer_fires 0 (run s [Toggle; Toggle])) = false
  ∧ nav_of (timer_fires 0 (run s [Toggle; Toggle])) = Hidden.
Proof.
  apply (hide_timers_are_never_cancelled
           (run init [Toggle; Select 3; Select 1]) [Toggle; Toggle] 0).
  - intros j Hj. repeat (apply elem_of_cons in Hj as [Hj|Hj]; [discriminate|]).
    by apply elem_of_nil in Hj.
  - vm_compute. lia.
Defined.

(** *** The hotkeys *)

(** X19: one key press delivers at most one event, and only an event
    with a Select number from 1 to 6; while the overlay is hidden it
    delivers nothing but a Toggle. It raises, with [TypeError], exactly
    for a key code without a character pressed while the overlay is
    visible. *)
Theorem on_press_delivers (key : pressed) (is_visible : bool) :
  match on_press key is_visible with
  | Ok es =>
    Forall deliverable es
    ∧ (length es ≤ 1)%nat
    ∧ (is_visible = false → Forall (fun e => e = Toggle) es)
    ∧ ¬ (key = KeyCode None ∧ is_visible = true)
  | Raise e => e = TypeError ∧ key = KeyCode None ∧ is_visible = true
  end.
Proof.
  assert (∀ c n, digit_1_to_6 c = Some n → 1 ≤ n ≤ 6 ∧ c ≠ 46%N) as Hdigit.
  { unfold digit_1_to_6. intros c n.
    destruct ((49 <=? c)%N && (c <=? 54)%N) eqn:E; [|done].
    intros [= <-]. apply andb_true_iff in E as [?%N.leb_le ?%N.leb_le]. lia. }
  destruct key as [[c|]| |], is_visible; cbn -[digit_1_to_6];
    try (destruct (digit_1_to_6 c) as [n|] eqn:E;
         [destruct (Hdigit c n E) as [Hn Hc]|]);
    try destruct (decide (c = 46%N)); try done; cbn;
    split_and?;
    solve [ done | by repeat constructor | cbn; lia | by intros [? ?]
          | constructor; [cbn; lia|constructor] ].
Qed.

(** The period key while the overlay is hidden. *)
Lemma on_press_delivers_period :
  match on_press (KeyCode (Some 46%N)) false with
  | Ok es => Forall (fun e => e = Toggle) es
  | Raise _ => False
  end.
Proof.
  pose proof (on_press_delivers (KeyCode (Some 46%N)) false) as H.
  destruct (on_press (KeyCode (Some 46%N)) false) as [es|e].
  - apply H. reflexivity.
  - destruct H as (_ & _ & H). discriminate H.
Defined.
End MenuMore.
